(** * Financial query agent: guardrails, indicators, portfolio, data cache

    A shallow embedding of the rule-based parts of the agent
    (guardrails.py, tools.py, the [validate] node of agent.py and the
    state record of state.py), with the properties of the written
    specification stated and proved over it.

    Conventions of the embedding.
    - Text is a list of characters ([list ascii]).  The Python code works
      on Unicode [str]; the embedding covers ASCII text, and characters
      above 127 are inert (no case, not a word character, not a digit).
    - Python [float] is IEEE binary64.  Numeric code is written once over
      an interface [Num] and read at two instances: exact rationals [Q]
      (the idealisation in which the universally quantified properties
      are stated) and primitive binary64 floats (which evaluate the code
      bit for bit on concrete inputs).
    - Dictionaries that are only indexed are [gmap]s; dictionaries that
      are iterated are association lists in insertion order.
    - The clock, the network and the random generator are an explicit
      world threaded through the stateful code, with a trace of the
      requests and sleeps performed. *)

From Stdlib Require Import List String Ascii Bool ZArith QArith Qabs Lia Lqa.
From Stdlib Require Import PrimFloat FloatOps SpecFloat Uint63 DecimalString.
From stdpp Require Import gmap strings.
Import ListNotations.

#[local] Open Scope nat_scope.

(* ===================================================================== *)
(** * Numbers *)
(* ===================================================================== *)

(** The arithmetic the numeric code uses.  [fltb a b] is Python's
    [a < b], [fleb a b] is [a <= b] and [feqb a b] is [a == b]; Python's
    [a > b] is written [fltb b a]. *)
Class Num (F : Type) := {
  of_Z : Z -> F;
  fadd : F -> F -> F;
  fsub : F -> F -> F;
  fmul : F -> F -> F;
  fdiv : F -> F -> F;
  fopp : F -> F;
  fltb : F -> F -> bool;
  fleb : F -> F -> bool;
  feqb : F -> F -> bool;
}.

Declare Scope num_scope.
Delimit Scope num_scope with num.
Infix "+" := fadd : num_scope.
Infix "-" := fsub : num_scope.
Infix "*" := fmul : num_scope.
Infix "/" := fdiv : num_scope.
Notation "- x" := (fopp x) : num_scope.
Infix "<?" := fltb : num_scope.
Infix "<=?" := fleb : num_scope.
Infix "=?" := feqb : num_scope.

(** A decimal literal [n/d] of the source ([0.5] is [ratio 1 2], [0.8] is
    [ratio 4 5]).  In binary64 the quotient of two small integers is the
    double nearest to the fraction, which is what the Python literal
    denotes. *)
Definition ratio {F} `{Num F} (n d : Z) : F := (of_Z n / of_Z d)%num.

(** Exact rationals.  Division by zero yields zero here, where numpy
    yields an infinity or a NaN: the properties stated over [Q] carry the
    hypotheses that keep every divisor away from zero. *)
#[export] Instance Q_Num : Num Q := {|
  of_Z := inject_Z;
  fadd := Qplus;
  fsub := Qminus;
  fmul := Qmult;
  fdiv := Qdiv;
  fopp := Qopp;
  fltb := fun a b => negb (Qle_bool b a);
  fleb := Qle_bool;
  feqb := Qeq_bool;
|}.

(** IEEE binary64, as Python and numpy compute. *)
Definition float_of_Z (z : Z) : float :=
  match z with
  | Z0 => PrimFloat.zero
  | Zpos _ => PrimFloat.of_uint63 (Uint63.of_Z z)
  | Zneg p => PrimFloat.opp (PrimFloat.of_uint63 (Uint63.of_Z (Zpos p)))
  end.

#[export] Instance binary64_Num : Num float := {|
  of_Z := float_of_Z;
  fadd := PrimFloat.add;
  fsub := PrimFloat.sub;
  fmul := PrimFloat.mul;
  fdiv := PrimFloat.div;
  fopp := PrimFloat.opp;
  fltb := PrimFloat.ltb;
  fleb := PrimFloat.leb;
  feqb := PrimFloat.eqb;
|}.

(** The rational number a finite double stands for, exactly. *)
Definition float_to_Q (f : float) : option Q :=
  match Prim2SF f with
  | S754_zero _ => Some 0%Q
  | S754_finite s m e =>
      let v := (inject_Z (Zpos m) * Qpower 2 e)%Q in
      Some (if s then (- v)%Q else v)
  | S754_infinity _ | S754_nan => None
  end.

(** [float_near f q eps]: the double [f] is finite and within [eps] of
    the rational [q]. *)
Definition float_near (f : float) (q eps : Q) : bool :=
  match float_to_Q f with
  | Some v => Qle_bool (Qabs (v - q)) eps
  | None => false
  end.

(* ===================================================================== *)
(** * Text *)
(* ===================================================================== *)

Module Text.

Definition text := list ascii.

(** A string literal as text. *)
Definition T (s : string) : text := list_ascii_of_string s.

Definition code (c : ascii) : nat := nat_of_ascii c.

Definition between (lo hi : nat) (c : ascii) : bool :=
  (lo <=? code c) && (code c <=? hi).

Definition is_upper : ascii -> bool := between 65 90.
Definition is_lower : ascii -> bool := between 97 122.
(** [\d] *)
Definition is_digit : ascii -> bool := between 48 57.
(** [\s]: tab, newline, vertical tab, form feed, carriage return, the
    four separators 28..31 and the space. *)
Definition is_space (c : ascii) : bool :=
  between 9 13 c || between 28 31 c || (code c =? 32).
(** [\w] *)
Definition is_word (c : ascii) : bool :=
  is_upper c || is_lower c || is_digit c || (code c =? 95).
(** [[\d.]] *)
Definition is_digit_or_dot (c : ascii) : bool :=
  is_digit c || (code c =? 46).

(** [str.lower] on one character and on a text. *)
Definition lower_char (c : ascii) : ascii :=
  if is_upper c then ascii_of_nat (code c + 32) else c.
Definition lower (t : text) : text := map lower_char t.

(** [str.upper]. *)
Definition upper_char (c : ascii) : ascii :=
  if is_lower c then ascii_of_nat (code c - 32) else c.
Definition upper (t : text) : text := map upper_char t.

(** [t.startswith(p)] *)
Fixpoint starts_with (p t : text) : bool :=
  match p, t with
  | [], _ => true
  | _ :: _, [] => false
  | a :: p', b :: t' => Ascii.eqb a b && starts_with p' t'
  end.

(** Python's [p in t] on strings. *)
Fixpoint contains (p t : text) : bool :=
  starts_with p t ||
  match t with
  | [] => false
  | _ :: t' => contains p t'
  end.

(** The declarative reading of "the text contains the phrase". *)
Definition occurs (p t : text) : Prop :=
  exists pre post, t = pre ++ p ++ post.

(** [sep.join(parts)] *)
Fixpoint join (sep : text) (parts : list text) : text :=
  match parts with
  | [] => []
  | [x] => x
  | x :: rest => x ++ sep ++ join sep rest
  end.

(** [str(n)] for a natural number. *)
Definition decimal (n : nat) : text :=
  T (NilZero.string_of_uint (Nat.to_uint n)).

End Text.

(* ===================================================================== *)
(** * Regular expressions *)
(* ===================================================================== *)

(** The fragment of Python's [re] syntax that guardrails.py uses, with
    the search order of a backtracking matcher: alternatives left to
    right, quantifiers greedy. *)
Module Regex.
Import Text.

Inductive regex : Type :=
| Eps                                  (* the empty pattern *)
| Chr (c : ascii)                      (* a literal character *)
| Cls (p : ascii -> bool)              (* a class: [\d], [\s], [[\d.]] *)
| Seq (r1 r2 : regex)                  (* r1 r2 *)
| Alt (r1 r2 : regex)                  (* r1|r2 *)
| Opt (r : regex)                      (* r? *)
| Many (p : ascii -> bool)             (* class* *)
| Bnd.                                 (* \b *)

(** [class+] *)
Definition Many1 (p : ascii -> bool) : regex := Seq (Cls p) (Many p).

(** A literal phrase. *)
Fixpoint lit (s : text) : regex :=
  match s with
  | [] => Eps
  | c :: s' => Seq (Chr c) (lit s')
  end.

(** A literal character against a character of the text; with
    [re.IGNORECASE] both are compared in lower case. *)
Definition chr_match (ignorecase : bool) (c x : ascii) : bool :=
  if ignorecase then Ascii.eqb (lower_char c) (lower_char x)
  else Ascii.eqb c x.

(** Is the character before position [i] / at position [i] a word
    character?  Outside the text there is none. *)
Definition word_at (t : text) (i : nat) : bool :=
  match nth_error t i with
  | Some c => is_word c
  | None => false
  end.
Definition word_before (t : text) (i : nat) : bool :=
  match i with
  | 0 => false
  | S k => word_at t k
  end.

(** [\b] holds between a word character and a non-word character. *)
Definition boundary (t : text) (i : nat) : bool :=
  xorb (word_before t i) (word_at t i).

(** Length of the longest prefix of [s] made of characters in [p]. *)
Fixpoint span (p : ascii -> bool) (s : text) : nat :=
  match s with
  | c :: s' => if p c then S (span p s') else 0
  | [] => 0
  end.

(** [countdown i n] is [i+n; i+n-1; ...; i]. *)
Fixpoint countdown (i n : nat) : list nat :=
  match n with
  | 0 => [i]
  | S k => (i + n) :: countdown i k
  end.

(** [ends ic t r i]: the positions at which a match of [r] that starts
    at position [i] of [t] can end, in the order in which a backtracking
    matcher tries them.  The head is the match [re] reports. *)
Fixpoint ends (ic : bool) (t : text) (r : regex) (i : nat) : list nat :=
  match r with
  | Eps => [i]
  | Chr c =>
      match nth_error t i with
      | Some x => if chr_match ic c x then [S i] else []
      | None => []
      end
  | Cls p =>
      match nth_error t i with
      | Some x => if p x then [S i] else []
      | None => []
      end
  | Seq r1 r2 => flat_map (ends ic t r2) (ends ic t r1 i)
  | Alt r1 r2 => ends ic t r1 i ++ ends ic t r2 i
  | Opt r1 => ends ic t r1 i ++ [i]
  | Many p => countdown i (span p (skipn i t))
  | Bnd => if boundary t i then [i] else []
  end.

Definition matches_at (ic : bool) (r : regex) (t : text) (i : nat) : bool :=
  match ends ic t r i with
  | [] => false
  | _ :: _ => true
  end.

(** [re.search(r, t)] as a truth value: is there a match anywhere? *)
Definition search (ic : bool) (r : regex) (t : text) : bool :=
  existsb (matches_at ic r t) (seq 0 (S (length t))).

(** [re.findall(r, t)] as the list of matched spans: leftmost match
    first, then on from its end.  (A pattern that can match the empty
    string moves on by one character; none of the patterns here can.) *)
Fixpoint findall_from (fuel : nat) (ic : bool) (r : regex) (t : text)
    (i : nat) : list (nat * nat) :=
  match fuel with
  | 0 => []
  | S fuel' =>
      if length t <? i then []
      else
        match ends ic t r i with
        | j :: _ =>
            (i, j) :: findall_from fuel' ic r t (if j <=? i then S i else j)
        | [] => findall_from fuel' ic r t (S i)
        end
  end.

Definition findall (ic : bool) (r : regex) (t : text) : list (nat * nat) :=
  findall_from (S (length t)) ic r t 0.

End Regex.

(* ===================================================================== *)
(** * guardrails.py *)
(* ===================================================================== *)

Module Guardrails.
Import Text Regex.

(** [OVERCONFIDENT_PHRASES].  The source lists each phrase [p] as the
    pattern [\bp\b]; [pattern.strip(r"\b")] removes the leading and
    trailing backslash and [b] characters, which gives [p] back since no
    phrase starts or ends with one. *)
Definition OVERCONFIDENT_PHRASES : list text :=
  map T [ "you must"; "you should definitely"; "guaranteed"; "certain to";
          "will definitely"; "always buy"; "never sell"; "perfect";
          "advisable to"; "you need to" ]%string.

Definition overconfident_pattern (p : text) : regex :=
  Seq Bnd (Seq (lit p) Bnd).

Definition REQUIRED_DISCLAIMER : text := T "not financial advice".

(** [check_overconfidence]: (is_ok, flagged phrases). *)
Definition check_overconfidence (text : text) : bool * list Text.text :=
  let text_lower := lower text in
  let flagged :=
    List.filter (fun p => search true (overconfident_pattern p) text_lower)
           OVERCONFIDENT_PHRASES in
  (length flagged =? 0, flagged).

(** [check_has_disclaimer]: (has_disclaimer, reason). *)
Definition check_has_disclaimer (text : text) : bool * Text.text :=
  let text_lower := lower text in
  if contains REQUIRED_DISCLAIMER text_lower
  then (true, T "Disclaimer found")
  else (false, T "Missing financial advice disclaimer").

(** [(confidence|score):\s*[\d.]+] *)
Definition confidence_label_pattern : regex :=
  Seq (Alt (lit (T "confidence")) (lit (T "score")))
      (Seq (Chr ":") (Seq (Many is_space) (Many1 is_digit_or_dot))).

(** [[\d.]+\s*\/\s*1\.0] *)
Definition ratio_pattern : regex :=
  Seq (Many1 is_digit_or_dot)
      (Seq (Many is_space)
           (Seq (Chr "/") (Seq (Many is_space) (lit (T "1.0"))))).

(** [\d+%] *)
Definition percent_pattern : regex := Seq (Many1 is_digit) (Chr "%").

(** [check_has_confidence_score]: (has_score, reason). *)
Definition check_has_confidence_score (text : text) : bool * Text.text :=
  if search true confidence_label_pattern text
  then (true, T "Confidence score found")
  else if search false ratio_pattern text
  then (true, T "Confidence score found (X/1.0 format)")
  else if search false percent_pattern text
  then (true, T "Likely confidence score found")
  else (false, T "No explicit confidence score").

Definition reasoning_indicators : list text :=
  map T [ "rsi"; "volatility"; "momentum"; "moving average";
          "price"; "analysis"; "indicator"; "signal";
          "technical"; "reason"; "because" ]%string.

(** [check_has_reasoning]: (has_reasoning, reason). *)
Definition check_has_reasoning (text : text) : bool * Text.text :=
  let text_lower := lower text in
  let found := List.filter (fun ind => contains ind text_lower)
                      reasoning_indicators in
  if 2 <=? length found
  then (true, T "Reasoning indicators found: "
                ++ join (T ", ") (firstn 3 found))
  else (false, T "Insufficient reasoning provided").

(** [\b\d+\.?\d*%?\b] *)
Definition number_pattern : regex :=
  Seq Bnd
      (Seq (Many1 is_digit)
           (Seq (Opt (Chr "."))
                (Seq (Many is_digit) (Seq (Opt (Chr "%")) Bnd)))).

Definition predictive_patterns : list text :=
  map T [ "will rise"; "will fall"; "tomorrow"; "next week";
          "guaranteed" ]%string.

(** [check_no_hallucination]: (is_ok, suspicious claims). *)
Definition check_no_hallucination (text : text)
    (used_data_points : list Text.text) : bool * list Text.text :=
  let numbers := findall false number_pattern text in
  let suspicious :=
    (if (0 <? length numbers) && (length used_data_points =? 0)
     then [ T "Specific numbers cited (" ++ decimal (length numbers)
            ++ T ") but no data context provided" ]
     else [])
    ++ map (fun pattern => T "Potentially predictive claim: " ++ pattern)
           (List.filter (fun pattern => search true (lit pattern) text)
                   predictive_patterns) in
  (length suspicious =? 0, suspicious).

(** One entry of the ["checks"] dictionary. *)
Record check := { passed : bool; reason : text }.

(** The keys of ["checks"], in insertion order. *)
Record checks (A : Type) := {
  overconfidence : A;
  disclaimer : A;
  confidence_score : A;
  reasoning : A;
  hallucination : A;
}.
Arguments overconfidence {A}.
Arguments disclaimer {A}.
Arguments confidence_score {A}.
Arguments reasoning {A}.
Arguments hallucination {A}.

(** The dictionary [validate] returns. *)
Record verdict (F : Type) := {
  all_passed : bool;
  verdict_checks : checks check;
  score : F;
}.
Arguments all_passed {F}.
Arguments verdict_checks {F}.
Arguments score {F}.

(** Python's [sum] of a list of booleans. *)
Definition count_true (bs : list bool) : nat :=
  length (List.filter (fun b => b) bs).

(** [all(bs)] *)
Definition all (bs : list bool) : bool := forallb (fun b => b) bs.

(** [GuardrailValidator.validate]; [data_context = None] is the default
    argument. *)
Definition validate {F} `{Num F} (response : text)
    (data_context : option (list text)) : verdict F :=
  let data_context := match data_context with Some l => l | None => [] end in
  let '(overconfidence_ok, overconfident_phrases) :=
    check_overconfidence response in
  let '(disclaimer_ok, disclaimer_reason) := check_has_disclaimer response in
  let '(confidence_ok, confidence_reason) :=
    check_has_confidence_score response in
  let '(reasoning_ok, reasoning_reason) := check_has_reasoning response in
  let '(hallucination_ok, hallucinations) :=
    check_no_hallucination response data_context in
  let all_passed :=
    all [overconfidence_ok; disclaimer_ok; confidence_ok; reasoning_ok;
         hallucination_ok] in
  {| all_passed := all_passed;
     verdict_checks :=
       {| overconfidence :=
            {| passed := overconfidence_ok;
               reason :=
                 if overconfidence_ok
                 then T "No overconfident language detected"
                 else T "Flagged: "
                      ++ join (T ", ") (firstn 3 overconfident_phrases) |};
          disclaimer :=
            {| passed := disclaimer_ok; reason := disclaimer_reason |};
          confidence_score :=
            {| passed := confidence_ok; reason := confidence_reason |};
          reasoning :=
            {| passed := reasoning_ok; reason := reasoning_reason |};
          hallucination :=
            {| passed := hallucination_ok;
               reason :=
                 if hallucination_ok
                 then T "No suspicious claims"
                 else T "Flagged: "
                      ++ join (T ", ") (firstn 2 hallucinations) |} |};
     score :=
       (of_Z (Z.of_nat (count_true
          [overconfidence_ok; disclaimer_ok; confidence_ok; reasoning_ok;
           hallucination_ok])) / of_Z 5)%num |}.

(** The five [passed] flags of a verdict, in order. *)
Definition passed_flags {F} (v : verdict F) : list bool :=
  let c := verdict_checks v in
  [ passed (overconfidence c); passed (disclaimer c);
    passed (confidence_score c); passed (reasoning c);
    passed (hallucination c) ].

End Guardrails.

(* ===================================================================== *)
(** * tools.py: IndicatorsTool *)
(* ===================================================================== *)

(** What a Python call does: it returns a value or raises. *)
Inductive exn : Type :=
| IndexError
| HTTPError (status_code : Z)          (* requests.exceptions.HTTPError *)
| OtherError.                          (* any other Exception *)

Inductive py (A : Type) : Type :=
| Ret (a : A)
| Raise (e : exn).
Arguments Ret {A} a.
Arguments Raise {A} e.

Module Indicators.

Section WithNum.
Context {F : Type} `{Num F}.

(** A pandas Series of prices is the list of its values, oldest first.
    [Series.sum] is an accumulating loop here; numpy adds long float
    arrays in a different order, which changes nothing over [Q]. *)
Definition sum (l : list F) : F := fold_left fadd l (of_Z 0).

Fixpoint diffs_from (prev : F) (l : list F) : list F :=
  match l with
  | [] => []
  | x :: l' => (x - prev)%num :: diffs_from x l'
  end.

(** [prices.diff()]: the first entry is NaN (no predecessor), modelled
    as [None]; entry [k] is [prices[k] - prices[k-1]]. *)
Definition diff (prices : list F) : list (option F) :=
  match prices with
  | [] => []
  | p :: rest => None :: map Some (diffs_from p rest)
  end.

(** [seed[mask]] for a comparison mask: a NaN entry compares false with
    everything and is dropped. *)
Definition select (cond : F -> bool) (seed : list (option F)) : list F :=
  flat_map (fun o => match o with
                     | Some d => if cond d then [d] else []
                     | None => []
                     end) seed.

(** [IndicatorsTool.calculate_rsi]; [period] defaults to 14. *)
Definition calculate_rsi (prices : list F) (period : nat) : option F :=
  if length prices <? period + 1 then None
  else
    let deltas := diff prices in
    let seed := firstn (period + 1) deltas in
    let up := (sum (select (fun d => of_Z 0 <=? d) seed)
               / of_Z (Z.of_nat period))%num in
    let down := ((- sum (select (fun d => d <? of_Z 0) seed))
                 / of_Z (Z.of_nat period))%num in
    let rs := (if negb (down =? of_Z 0) then up / down else of_Z 0)%num in
    let rsi := (of_Z 100 - (of_Z 100 / (of_Z 1 + rs)))%num in
    Some rsi.

(** [prices.iloc[-k]]: the [k]-th value from the end; [-0] is [0], the
    first value.  Out of range it raises. *)
Definition iloc_neg (prices : list F) (k : nat) : py F :=
  let i := if k =? 0 then Some 0
           else if length prices <? k then None
           else Some (length prices - k) in
  match i with
  | Some i =>
      match nth_error prices i with
      | Some x => Ret x
      | None => Raise IndexError
      end
  | None => Raise IndexError
  end.

(** [IndicatorsTool.calculate_momentum]; [period] defaults to 20. *)
Definition calculate_momentum (prices : list F) (period : nat)
  : py (option F) :=
  if length prices <? period then Ret None
  else
    match iloc_neg prices 1 with
    | Raise e => Raise e
    | Ret current =>
        match iloc_neg prices period with
        | Raise e => Raise e
        | Ret past =>
            let momentum := ((current - past) / past * of_Z 100)%num in
            Ret (Some momentum)
        end
    end.

(** [IndicatorsTool.get_signal_strength]. *)
Definition get_signal_strength (rsi momentum volatility : option F)
  : string :=
  match rsi, momentum with
  | Some rsi, Some momentum =>
      let score := of_Z 0 in
      (* RSI signals *)
      let score :=
        (if rsi <? of_Z 30 then score + of_Z 2
         else if rsi <? of_Z 40 then score + of_Z 1
         else if of_Z 70 <? rsi then score - of_Z 2
         else if of_Z 60 <? rsi then score - of_Z 1
         else score)%num in
      (* Momentum signals *)
      let score :=
        (if of_Z 5 <? momentum then score + of_Z 1
         else if of_Z 0 <? momentum then score + ratio 1 2
         else if momentum <? of_Z (-5) then score - of_Z 1
         else if momentum <? of_Z 0 then score - ratio 1 2
         else score)%num in
      (* Volatility modifier: [if volatility and volatility > 30] *)
      let score :=
        match volatility with
        | Some v =>
            (if negb (v =? of_Z 0) && (of_Z 30 <? v)
             then score * ratio 4 5
             else score)%num
        | None => score
        end in
      if (of_Z 2 <=? score)%num then "strong_buy"
      else if (ratio 1 2 <=? score)%num then "buy"
      else if (score <=? of_Z (-2))%num then "strong_sell"
      else if (score <=? ratio (-1) 2)%num then "sell"
      else "neutral"
  | _, _ => "neutral"
  end%string.

End WithNum.

(** The five labels of the docstring. *)
Definition signal_labels : list string :=
  [ "strong_buy"; "buy"; "neutral"; "sell"; "strong_sell" ]%string.

End Indicators.

(* ===================================================================== *)
(** * tools.py: PortfolioTool *)
(* ===================================================================== *)

Module Portfolio.

Section WithNum.
Context {F : Type} `{Num F}.

(** A dictionary that is iterated: its items in insertion order. *)
Definition dict (V : Type) := list (string * V).

(** [d[k] = v]: overwrite in place, or append a new key. *)
Fixpoint dict_set {V} (d : dict V) (k : string) (v : V) : dict V :=
  match d with
  | [] => [(k, v)]
  | (k', v') :: d' =>
      if String.eqb k' k then (k, v) :: d' else (k', v') :: dict_set d' k v
  end.

(** [PortfolioTool.calculate_portfolio_value]. *)
Definition calculate_portfolio_value (holdings : dict F)
    (prices : gmap string F) : F :=
  fold_left
    (fun total '(symbol, shares) =>
       match prices !! symbol with
       | Some price => (total + shares * price)%num
       | None => total
       end)
    holdings (of_Z 0).

(** [PortfolioTool.calculate_allocation]. *)
Definition calculate_allocation (holdings : dict F)
    (prices : gmap string F) : dict F :=
  let total_value := calculate_portfolio_value holdings prices in
  if (total_value =? of_Z 0)%num then []
  else
    fold_left
      (fun allocation '(symbol, shares) =>
         match prices !! symbol with
         | Some price =>
             let position_value := (shares * price)%num in
             dict_set allocation symbol
                      (position_value / total_value * of_Z 100)%num
         | None => allocation
         end)
      holdings [].

End WithNum.

End Portfolio.

(* ===================================================================== *)
(** * tools.py: StockDataTool *)
(* ===================================================================== *)

Module StockData.

(** Times are integers in microseconds (the resolution of [datetime]);
    [time.time()] and [datetime.now()] read the same clock. *)
Definition seconds (n : Z) : Z := (n * 1000000)%Z.
Definition minutes (n : Z) : Z := seconds (n * 60).

Section WithNum.
Context {F : Type} `{Num F}.

(** One row of the daily history the data source returns. *)
Record row := {
  r_time : Z;
  r_open : F;
  r_high : F;
  r_low : F;
  r_close : F;
  r_volume : Z;
}.

(** The dictionary [get_stock_data] returns; [history] keeps the Close
    column of the DataFrame. *)
Record snapshot := {
  symbol : string;
  price : F;
  open : F;
  high : F;
  low : F;
  volume : Z;
  date : string;
  change_percent : F;
  history : list F;
}.

(** What one [requests.get] and the parsing that follows can come to. *)
Inductive response : Type :=
| HttpStatus (status_code : Z)   (* raise_for_status raises HTTPError *)
| Failure                        (* any other exception: connection,
                                    timeout, malformed payload *)
| NoData                         (* no chart, no result, no timestamps *)
| Rows (hist : list row).        (* the complete rows, oldest first *)

(** The random draws of one [_get_mock_data] call. *)
Record mock_draw := {
  noise : F;                     (* random.uniform(-0.05, 0.05) *)
  mock_volume : Z;               (* random.randint(10_000_000, 100_000_000) *)
  mock_change : F;               (* random.uniform(-3, 3) *)
  history_noise : nat -> F;      (* random.uniform(-0.02, 0.02), 252 times *)
}.

(** Everything outside the program: the reply and the duration of the
    n-th request, the n-th batch of random draws, the calendar. *)
Record environment := {
  reply_of : nat -> response;
  latency_of : nat -> Z;
  draw_of : nat -> mock_draw;
  date_of : Z -> string;
}.

Inductive event : Type :=
| Request (symbol : string) (period1 period2 : Z)
| Sleep (duration : Z).

Record world := {
  clock : Z;
  requests_made : nat;
  draws_made : nat;
  trace : list event;
}.

(** The fields of a [StockDataTool] object. *)
Record tool := {
  cache : gmap string (Z * snapshot);
  cache_duration : Z;
  use_mock : bool;
  last_request_time : Z;
  min_request_interval : Z;
}.

(** [StockDataTool(cache_duration_minutes, use_mock)]; the defaults are
    5 and [False]. *)
Definition new_tool (cache_duration_minutes : Z) (use_mock : bool) : tool :=
  {| cache := ∅;
     cache_duration := minutes cache_duration_minutes;
     use_mock := use_mock;
     last_request_time := 0;
     min_request_interval := seconds 1 |}.

(** Methods run in a state monad over the object and the world. *)
Definition M (A : Type) : Type := tool -> world -> A * tool * world.

Definition ret {A} (a : A) : M A := fun s w => (a, s, w).
Definition bind {A B} (m : M A) (k : A -> M B) : M B :=
  fun s w => let '(a, s', w') := m s w in k a s' w'.

#[local] Notation "x <- m ;; k" := (bind m (fun x => k))
  (at level 100, m at next level, right associativity).
#[local] Notation "m ;; k" := (bind m (fun _ => k))
  (at level 100, right associativity).

Definition self : M tool := fun s w => (s, s, w).
Definition now : M Z := fun s w => (clock w, s, w).

(** [time.sleep(d)] *)
Definition sleep (d : Z) : M unit :=
  fun s w =>
    (tt, s, {| clock := clock w + d;
               requests_made := requests_made w;
               draws_made := draws_made w;
               trace := trace w ++ [Sleep d] |}).

(** [self.cache[symbol] = (timestamp, data)] *)
Definition set_cache (sym : string) (entry : Z * snapshot) : M unit :=
  fun s w =>
    (tt, {| cache := <[sym := entry]> (cache s);
            cache_duration := cache_duration s;
            use_mock := use_mock s;
            last_request_time := last_request_time s;
            min_request_interval := min_request_interval s |}, w).

(** [self.last_request_time = t] *)
Definition set_last_request_time (t : Z) : M unit :=
  fun s w =>
    (tt, {| cache := cache s;
            cache_duration := cache_duration s;
            use_mock := use_mock s;
            last_request_time := t;
            min_request_interval := min_request_interval s |}, w).

Variable env : environment.

(** [requests.get(url, params)] followed by [raise_for_status] and the
    parsing of the payload. *)
Definition http_get (sym : string) (period1 period2 : Z) : M response :=
  fun s w =>
    (reply_of env (requests_made w), s,
     {| clock := clock w + latency_of env (requests_made w);
        requests_made := S (requests_made w);
        draws_made := draws_made w;
        trace := trace w ++ [Request sym period1 period2] |}).

Definition random_draw : M mock_draw :=
  fun s w =>
    (draw_of env (draws_made w), s,
     {| clock := clock w;
        requests_made := requests_made w;
        draws_made := S (draws_made w);
        trace := trace w |}).

Definition str_upper (s : string) : string :=
  string_of_list_ascii (Text.upper (list_ascii_of_string s)).

(** [d.get(k, default)] on a literal dictionary. *)
Fixpoint get_default {V} (d : list (string * V)) (k : string) (default : V)
  : V :=
  match d with
  | [] => default
  | (k', v) :: d' => if String.eqb k' k then v else get_default d' k default
  end.

Definition base_prices : list (string * Z) :=
  [ ("AAPL", 273); ("TSLA", 280); ("NVDA", 920);
    ("GOOGL", 190); ("MSFT", 460); ("AMZN", 250) ]%string%Z.

(** [StockDataTool._get_mock_data]. *)
Definition _get_mock_data (sym : string) : M snapshot :=
  r <- random_draw ;;
  t <- now ;;
  let base := of_Z (get_default base_prices (str_upper sym) 100%Z) in
  let price := (base * (of_Z 1 + noise r))%num in
  ret {| symbol := str_upper sym;
         price := price;
         open := (price * ratio 98 100)%num;
         high := (price * ratio 102 100)%num;
         low := (price * ratio 95 100)%num;
         volume := mock_volume r;
         date := date_of env (t / 1000000);
         change_percent := mock_change r;
         history :=
           map (fun k => (base * (of_Z 1 + history_noise r k))%num)
               (seq 0 252) |}.

Definition period_map : list (string * Z) :=
  [ ("1d", 86400); ("5d", 86400 * 5); ("1mo", 86400 * 30);
    ("3mo", 86400 * 90); ("6mo", 86400 * 180); ("1y", 86400 * 365);
    ("2y", 86400 * 730); ("5y", 86400 * 1825) ]%string%Z.

(** [StockDataTool._fetch_from_yahoo_api]. *)
Definition _fetch_from_yahoo_api (sym period : string)
  : M (py (option snapshot)) :=
  t <- now ;;
  let end_ := (t / 1000000)%Z in
  let period_seconds := get_default period_map period (86400 * 365)%Z in
  let start := (end_ - period_seconds)%Z in
  resp <- http_get sym start end_ ;;
  match resp with
  | HttpStatus code => ret (Raise (HTTPError code))
  | Failure => ret (Raise OtherError)
  | NoData => ret (Ret None)
  | Rows hist =>
      match rev hist with
      | [] => ret (Ret None)
      | latest :: before =>
          let prev_close :=
            match before with
            | prev :: _ => r_close prev
            | [] => r_close latest
            end in
          ret (Ret (Some
            {| symbol := str_upper sym;
               price := r_close latest;
               open := r_open latest;
               high := r_high latest;
               low := r_low latest;
               volume := r_volume latest;
               date := date_of env (r_time latest);
               change_percent :=
                 ((r_close latest - prev_close) / prev_close
                  * of_Z 100)%num;
               history := map r_close hist |}))
      end
  end.

(** The retry loop [for attempt in range(3)], over the attempts still to
    make.  [Some data] is the [return data] inside the loop; [None] is
    leaving the loop, by [break] or by running out of attempts. *)
Fixpoint attempts (sym period : string) (todo : list Z)
  : M (option snapshot) :=
  match todo with
  | [] => ret None
  | attempt :: rest =>
      r <- _fetch_from_yahoo_api sym period ;;
      match r with
      | Ret (Some data) =>
          t <- now ;;
          set_cache sym (t, data) ;;
          t' <- now ;;
          set_last_request_time t' ;;
          ret (Some data)
      | Ret None => attempts sym period rest
      | Raise (HTTPError status_code) =>
          if (status_code =? 429)%Z then
            let wait_time := seconds (2 ^ attempt * 2) in
            sleep wait_time ;;
            attempts sym period rest
          else ret None
      | Raise _ => ret None
      end
  end.

(** The cache check at the head of [get_stock_data]. *)
Definition cached (sym : string) : M (option snapshot) :=
  s <- self ;;
  match cache s !! sym with
  | Some (timestamp, cached_data) =>
      t <- now ;;
      if (t - timestamp <? cache_duration s)%Z
      then ret (Some cached_data)
      else ret None
  | None => ret None
  end.

(** The fallback after the loop. *)
Definition fallback (sym : string) : M (option snapshot) :=
  s <- self ;;
  if use_mock s then
    data <- _get_mock_data sym ;;
    t <- now ;;
    set_cache sym (t, data) ;;
    ret (Some data)
  else ret None.

(** [StockDataTool.get_stock_data]; [period] defaults to ["1y"].  The
    outer [except Exception] has nothing to catch here: reading the
    clock, sleeping and building the mock data do not fail, and the
    loop catches every exception of the request. *)
Definition get_stock_data (sym period : string) : M (option snapshot) :=
  hit <- cached sym ;;
  match hit with
  | Some cached_data => ret (Some cached_data)
  | None =>
      (* Rate limiting: wait if needed *)
      s <- self ;;
      t <- now ;;
      let elapsed := (t - last_request_time s)%Z in
      (if (elapsed <? min_request_interval s)%Z
       then sleep (min_request_interval s - elapsed)
       else ret tt) ;;
      r <- attempts sym period [0; 1; 2]%Z ;;
      match r with
      | Some data => ret (Some data)
      | None => fallback sym
      end
  end.

(** The requests and the sleeps among some events. *)
Definition requests (evs : list event) : list event :=
  List.filter (fun e => match e with Request _ _ _ => true | _ => false end)
              evs.
Definition sleeps (evs : list event) : list Z :=
  flat_map (fun e => match e with Sleep d => [d] | _ => [] end) evs.

End WithNum.

End StockData.

(* ===================================================================== *)
(** * state.py and the validate node of agent.py *)
(* ===================================================================== *)

Module Agent.
Import Text.

(** [f"{x:.2f}"] for an exact rational: two decimals, the nearest value,
    a tie going to the even neighbour. *)
Definition round_half_even (q : Q) : Z :=
  let n := Qnum q in
  let d := Zpos (Qden q) in
  let fl := (n / d)%Z in
  let twice_rem := (2 * (n mod d))%Z in
  if (twice_rem <? d)%Z then fl
  else if (d <? twice_rem)%Z then (fl + 1)%Z
  else if Z.even fl then fl else (fl + 1)%Z.

Definition two_digits (n : Z) : text :=
  decimal (Z.to_nat (n / 10)) ++ decimal (Z.to_nat (n mod 10)).

Definition format_2f_Q (q : Q) : text :=
  let hundredths := round_half_even (Qabs q * 100) in
  (if Qle_bool 0 q then [] else T "-")
  ++ decimal (Z.to_nat (hundredths / 100)) ++ T "."
  ++ two_digits (hundredths mod 100).

Section WithNum.
Context {F : Type} `{Num F}.

(** The payload of a tool call is any JSON-serialisable value;
    [json_dumps] stands for [json.dumps(_, default=str)] and [format_2f]
    for the format [.2f].  The three pydantic models the validate node
    never reads stay abstract. *)
Variables (Payload Params : Type).
Variable json_dumps : Payload -> text.
Variable format_2f : F -> text.
Variables (StockDataPoint IndicatorAnalysis AnalysisResult : Type).

Record Message := {
  role : string;
  content : text;
  timestamp : Z;
}.

Record ToolCall := {
  tool_name : string;
  input_params : Params;
  output : Payload;
  call_timestamp : Z;
}.

Record AgentState := {
  messages : list Message;
  current_query : text;
  stock_analysis : option AnalysisResult;
  latest_data : option StockDataPoint;
  latest_indicators : option IndicatorAnalysis;
  comparison_symbols : list string;
  comparison_results : list AnalysisResult;
  portfolio_holdings : Portfolio.dict F;
  portfolio_allocation_pref : Portfolio.dict F;
  tool_calls : list ToolCall;
  final_response : text;
  guardrail_checks : option (Guardrails.verdict F);  (* [None] is [{}] *)
  created_at : Z;
  session_id : string;
}.

(** [AgentState.add_message]; [now] is the reading of [datetime.now]. *)
Definition add_message (now : Z) (state : AgentState) (role : string)
    (content : text) : AgentState :=
  {| messages := messages state
                 ++ [ {| role := role; content := content;
                         timestamp := now |} ];
     current_query := current_query state;
     stock_analysis := stock_analysis state;
     latest_data := latest_data state;
     latest_indicators := latest_indicators state;
     comparison_symbols := comparison_symbols state;
     comparison_results := comparison_results state;
     portfolio_holdings := portfolio_holdings state;
     portfolio_allocation_pref := portfolio_allocation_pref state;
     tool_calls := tool_calls state;
     final_response := final_response state;
     guardrail_checks := guardrail_checks state;
     created_at := created_at state;
     session_id := session_id state |}.

(** [state.guardrail_checks = results] *)
Definition set_guardrail_checks (state : AgentState)
    (results : Guardrails.verdict F) : AgentState :=
  {| messages := messages state;
     current_query := current_query state;
     stock_analysis := stock_analysis state;
     latest_data := latest_data state;
     latest_indicators := latest_indicators state;
     comparison_symbols := comparison_symbols state;
     comparison_results := comparison_results state;
     portfolio_holdings := portfolio_holdings state;
     portfolio_allocation_pref := portfolio_allocation_pref state;
     tool_calls := tool_calls state;
     final_response := final_response state;
     guardrail_checks := Some results;
     created_at := created_at state;
     session_id := session_id state |}.

(** The [validate] node.  Logging, and the suggestions that are only
    logged, leave no mark on the state and are left out. *)
Definition validate (now : Z) (state : AgentState) : AgentState :=
  let tool_calls := tool_calls state in
  let data_points :=
    map (fun call => T (tool_name call) ++ T ": " ++ json_dumps (output call))
        tool_calls in
  let validation_results :=
    Guardrails.validate (final_response state) (Some data_points) in
  let state := set_guardrail_checks state validation_results in
  add_message now state "system"
    (T "Validation complete. Score: "
     ++ format_2f (Guardrails.score validation_results) ++ T "/1.0").

End WithNum.

Arguments messages {F Payload Params StockDataPoint IndicatorAnalysis
  AnalysisResult} _.
Arguments current_query {F Payload Params StockDataPoint IndicatorAnalysis
  AnalysisResult} _.
Arguments stock_analysis {F Payload Params StockDataPoint IndicatorAnalysis
  AnalysisResult} _.
Arguments latest_data {F Payload Params StockDataPoint IndicatorAnalysis
  AnalysisResult} _.
Arguments latest_indicators {F Payload Params StockDataPoint IndicatorAnalysis
  AnalysisResult} _.
Arguments comparison_symbols {F Payload Params StockDataPoint IndicatorAnalysis
  AnalysisResult} _.
Arguments comparison_results {F Payload Params StockDataPoint IndicatorAnalysis
  AnalysisResult} _.
Arguments portfolio_holdings {F Payload Params StockDataPoint IndicatorAnalysis
  AnalysisResult} _.
Arguments portfolio_allocation_pref {F Payload Params StockDataPoint IndicatorAnalysis
  AnalysisResult} _.
Arguments tool_calls {F Payload Params StockDataPoint IndicatorAnalysis
  AnalysisResult} _.
Arguments final_response {F Payload Params StockDataPoint IndicatorAnalysis
  AnalysisResult} _.
Arguments guardrail_checks {F Payload Params StockDataPoint IndicatorAnalysis
  AnalysisResult} _.
Arguments created_at {F Payload Params StockDataPoint IndicatorAnalysis
  AnalysisResult} _.
Arguments session_id {F Payload Params StockDataPoint IndicatorAnalysis
  AnalysisResult} _.
Arguments tool_name {Payload Params} _.
Arguments input_params {Payload Params} _.
Arguments output {Payload Params} _.
Arguments call_timestamp {Payload Params} _.

End Agent.

(* ===================================================================== *)
(** * Properties of text and of the matcher *)
(* ===================================================================== *)

Section TextFacts.
Import Text.

Lemma starts_with_prefix p t :
  starts_with p t = true <-> exists post, t = p ++ post.
Proof.
  revert t. induction p as [|a p IH]; intros t; simpl.
  - split; [intros _; now exists t | reflexivity].
  - destruct t as [|b t].
    + split; [discriminate | intros [post E]; discriminate].
    + rewrite andb_true_iff, Ascii.eqb_eq, IH. split.
      * intros [-> [post ->]]. now exists post.
      * intros [post E]. injection E as -> ->. split; [reflexivity | now exists post].
Qed.

Lemma contains_occurs p t : contains p t = true <-> occurs p t.
Proof.
  unfold occurs. induction t as [|b t IH].
  - simpl. rewrite orb_false_r, starts_with_prefix. split.
    + intros [post E]. now exists [], post.
    + intros [pre [post E]]. destruct pre; [now exists post | discriminate].
  - simpl. rewrite orb_true_iff, starts_with_prefix, IH. split.
    + intros [[post E] | [pre [post E]]].
      * now exists [], post.
      * exists (b :: pre), post. simpl. now rewrite E.
    + intros [pre [post E]]. destruct pre as [|c pre].
      * left. now exists post.
      * right. injection E as _ E. now exists pre, post.
Qed.

Lemma not_contains_occurs p t : contains p t = false <-> ~ occurs p t.
Proof.
  rewrite <- contains_occurs. now destruct (contains p t).
Qed.

Lemma lower_app a b : lower (a ++ b) = lower a ++ lower b.
Proof. apply map_app. Qed.

Lemma occurs_lower p t : occurs p t -> occurs (lower p) (lower t).
Proof.
  intros [pre [post ->]]. exists (lower pre), (lower post).
  now rewrite !lower_app.
Qed.

Lemma lower_char_idem c : lower_char (lower_char c) = lower_char c.
Proof.
  destruct c as [[] [] [] [] [] [] [] []]; reflexivity.
Qed.

Lemma lower_idem t : lower (lower t) = lower t.
Proof.
  unfold lower. rewrite map_map. apply map_ext, lower_char_idem.
Qed.

(** Position [length pre + k] of [pre ++ s ++ post] is position [k] of
    [s]. *)
Lemma nth_error_middle (pre s post : text) k :
  k < length s ->
  nth_error (pre ++ s ++ post) (k + length pre) = nth_error s k.
Proof.
  intros Hk. rewrite nth_error_app2 by lia.
  replace (k + length pre - length pre) with k by lia.
  now rewrite nth_error_app1.
Qed.

Lemma firstn_snoc (t : text) i x :
  nth_error t i = Some x -> firstn (S i) t = firstn i t ++ [x].
Proof.
  revert i. induction t as [|a t IH]; intros [|i] E; simpl in *; try discriminate.
  - now injection E as ->.
  - now rewrite (IH _ E).
Qed.

(** Two distinct members of a list that both pass a test leave at least
    two elements after filtering. *)
Lemma filter_two {A} (f : A -> bool) (l : list A) a b :
  a <> b -> In a l -> In b l -> f a = true -> f b = true ->
  2 <= length (List.filter f l).
Proof.
  intros Hab Ha Hb Hfa Hfb.
  assert (Hin : forall x, In x l -> f x = true -> In x (List.filter f l)).
  { intros x Hx Hfx. apply filter_In. now split. }
  pose proof (Hin a Ha Hfa) as Ia. pose proof (Hin b Hb Hfb) as Ib.
  destruct (List.filter f l) as [|x [|y r]]; simpl in *.
  - contradiction.
  - destruct Ia as [<-|[]], Ib as [<-|[]]. contradiction.
  - lia.
Qed.

End TextFacts.

Section RegexFacts.
Import Text Regex.

Lemma matches_at_In ic r t i :
  matches_at ic r t i = true <-> exists j, In j (ends ic t r i).
Proof.
  unfold matches_at. destruct (ends ic t r i) as [|j l]; simpl.
  - split; [discriminate | intros [j []]].
  - split; [intros _; exists j; now left | reflexivity].
Qed.

Lemma search_spec ic r t :
  search ic r t = true <->
  exists i, i <= length t /\ matches_at ic r t i = true.
Proof.
  unfold search. rewrite existsb_exists. split.
  - intros [i [Hi Hm]]. apply in_seq in Hi. exists i. split; [lia | exact Hm].
  - intros [i [Hi Hm]]. exists i. split; [apply in_seq; lia | exact Hm].
Qed.

Lemma In_ends_Seq ic t r1 r2 i j k :
  In j (ends ic t r1 i) -> In k (ends ic t r2 j) ->
  In k (ends ic t (Seq r1 r2) i).
Proof.
  intros H1 H2. simpl. apply in_flat_map. now exists j.
Qed.

Lemma In_ends_Seq_inv ic t r1 r2 i k :
  In k (ends ic t (Seq r1 r2) i) ->
  exists j, In j (ends ic t r1 i) /\ In k (ends ic t r2 j).
Proof.
  simpl. intros H. apply in_flat_map in H. exact H.
Qed.

Lemma In_ends_Chr ic t c x i :
  nth_error t i = Some x -> chr_match ic c x = true ->
  In (S i) (ends ic t (Chr c) i).
Proof.
  intros E M. simpl. rewrite E, M. now left.
Qed.

Lemma In_ends_Cls ic t p x i :
  nth_error t i = Some x -> p x = true ->
  In (S i) (ends ic t (Cls p) i).
Proof.
  intros E M. simpl. rewrite E, M. now left.
Qed.

Lemma In_ends_Opt_skip ic t r i : In i (ends ic t (Opt r) i).
Proof. simpl. apply in_or_app. right. now left. Qed.

Lemma In_countdown i n k : In k (countdown i n) <-> i <= k <= i + n.
Proof.
  induction n as [|n IH]; simpl.
  - split; [intros [<-|[]]; lia | intros; left; lia].
  - rewrite IH. split; [intros [<-|?]; lia | intros; destruct (Nat.eq_dec k (i + S n)); [left; lia | right; lia]].
Qed.

(** [class*] can stop at once... *)
Lemma In_ends_Many_zero ic t p i : In i (ends ic t (Many p) i).
Proof. simpl. apply In_countdown. lia. Qed.

Lemma skipn_nth_error (t : text) i x :
  nth_error t i = Some x -> skipn i t = x :: skipn (S i) t.
Proof.
  revert i. induction t as [|a t IH]; intros [|i] E; simpl in *; try discriminate.
  - now injection E as ->.
  - now apply IH.
Qed.

(** ... or take one more character of the class. *)
Lemma In_ends_Many_step ic t p x i k :
  nth_error t i = Some x -> p x = true ->
  In k (ends ic t (Many p) (S i)) -> In k (ends ic t (Many p) i).
Proof.
  simpl. intros E Px. rewrite (skipn_nth_error _ _ _ E). simpl. rewrite Px.
  rewrite !In_countdown. lia.
Qed.

(** What a literal phrase matches: a segment of the text, character by
    character. *)
Lemma ends_lit_sound ic t p i j :
  In j (ends ic t (lit p) i) ->
  exists seg, Forall2 (fun c x => chr_match ic c x = true) p seg /\
              firstn j t = firstn i t ++ seg.
Proof.
  revert i. induction p as [|c p IH]; intros i Hj.
  - simpl in Hj. destruct Hj as [<-|[]]. exists []. split; [constructor | now rewrite app_nil_r].
  - apply In_ends_Seq_inv in Hj. destruct Hj as [m [Hm Hj]].
    simpl in Hm. destruct (nth_error t i) as [x|] eqn:E; [|contradiction].
    destruct (chr_match ic c x) eqn:M; [|contradiction].
    destruct Hm as [<-|[]].
    destruct (IH _ Hj) as [seg [HF Hseg]].
    exists (x :: seg). split; [now constructor |].
    rewrite Hseg, (firstn_snoc _ _ _ E), <- app_assoc. reflexivity.
Qed.

Lemma chr_match_lower p seg :
  Forall2 (fun c x => chr_match true c x = true) p seg -> lower seg = lower p.
Proof.
  induction 1 as [|c x p seg M _ IH]; [reflexivity|].
  simpl. rewrite IH. unfold chr_match in M. apply Ascii.eqb_eq in M.
  now rewrite M.
Qed.

(** A case-insensitive match of a literal phrase somewhere in the text
    means the lower-cased phrase occurs in the lower-cased text. *)
Lemma ends_lit_occurs t p i j :
  In j (ends true t (lit p) i) -> occurs (lower p) (lower t).
Proof.
  intros Hj. destruct (ends_lit_sound _ _ _ _ _ Hj) as [seg [HF Hseg]].
  exists (lower (firstn i t)), (lower (skipn j t)).
  rewrite <- (chr_match_lower _ _ HF), app_assoc, <- !lower_app, <- Hseg.
  now rewrite firstn_skipn.
Qed.

Lemma search_lit_occurs t p :
  search true (lit p) t = true -> occurs (lower p) (lower t).
Proof.
  intros Hs. apply search_spec in Hs. destruct Hs as [i [_ Hm]].
  apply matches_at_In in Hm. destruct Hm as [j Hj].
  exact (ends_lit_occurs _ _ _ _ Hj).
Qed.

(** The same for a phrase between two [\b]. *)
Lemma search_word_occurs t p :
  search true (Seq Bnd (Seq (lit p) Bnd)) t = true ->
  occurs (lower p) (lower t).
Proof.
  intros Hs. apply search_spec in Hs. destruct Hs as [i [_ Hm]].
  apply matches_at_In in Hm. destruct Hm as [j Hj].
  apply In_ends_Seq_inv in Hj. destruct Hj as [i' [Hb Hj]].
  apply In_ends_Seq_inv in Hj. destruct Hj as [m [Hl _]].
  exact (ends_lit_occurs _ _ _ _ Hl).
Qed.

(** A literal phrase matches where the text carries it, whatever the
    case of either. *)
Lemma In_ends_lit ic (pre s post : text) p k :
  Forall2 (fun c x => chr_match ic c x = true) p
          (firstn (length p) (skipn k s)) ->
  k + length p <= length s ->
  In (length p + k + length pre)
     (ends ic (pre ++ s ++ post) (lit p) (k + length pre)).
Proof.
  revert k. induction p as [|c p IH]; intros k HF Hlen.
  - simpl. now left.
  - simpl in Hlen.
    assert (Hk : k < length s) by lia.
    destruct (nth_error s k) as [x|] eqn:E;
      [|apply nth_error_None in E; lia].
    rewrite (skipn_nth_error _ _ _ E) in HF. simpl in HF.
    inversion HF as [|? ? ? ? M HF']; subst.
    apply In_ends_Seq with (j := S k + length pre).
    + apply In_ends_Chr with (x := x); [|exact M].
      now rewrite nth_error_middle.
    + replace (length (c :: p) + k + length pre)
        with (length p + S k + length pre) by (simpl; lia).
      apply IH; [exact HF' | lia].
Qed.

(** A word boundary inside a known segment of the text. *)
Lemma boundary_middle (pre s post : text) k :
  S k < length s ->
  xorb (word_at s k) (word_at s (S k)) = true ->
  boundary (pre ++ s ++ post) (S k + length pre) = true.
Proof.
  intros Hk Hx. unfold boundary. cbn [Nat.add word_before].
  unfold word_at in *.
  change (S (k + length pre)) with (S k + length pre).
  now rewrite !nth_error_middle by lia.
Qed.

(** [findall] finds something as soon as the pattern matches somewhere. *)
Lemma findall_from_nonempty ic r t i fuel s :
  matches_at ic r t i = true -> i <= length t -> s <= i -> i - s < fuel ->
  findall_from fuel ic r t s <> [].
Proof.
  intros Hm Hi. revert s. induction fuel as [|fuel IH]; intros s Hs Hf; [lia|].
  simpl. destruct (Nat.ltb_spec (length t) s) as [?|_]; [lia|].
  destruct (ends ic t r s) as [|j l] eqn:E; [|discriminate].
  assert (s <> i).
  { intros ->. unfold matches_at in Hm. now rewrite E in Hm. }
  apply IH; lia.
Qed.

Lemma findall_nonempty ic r t i :
  matches_at ic r t i = true -> i <= length t -> findall ic r t <> [].
Proof.
  intros Hm Hi. unfold findall.
  apply (findall_from_nonempty ic r t i); [exact Hm | exact Hi | | ]; lia.
Qed.

End RegexFacts.

(* ===================================================================== *)
(** * The guardrail verdict *)
(* ===================================================================== *)

Section GuardrailFacts.
Import Text Regex Guardrails.

(** The verdict records the outcome of the five checks, its score is
    their count over five and [all_passed] is their conjunction. *)
Lemma validate_flags {F} `{Num F} response data_context :
  passed_flags (validate (F := F) response data_context) =
  [ fst (check_overconfidence response);
    fst (check_has_disclaimer response);
    fst (check_has_confidence_score response);
    fst (check_has_reasoning response);
    fst (check_no_hallucination response
           (match data_context with Some l => l | None => [] end)) ].
Proof.
  unfold validate, passed_flags.
  destruct (check_overconfidence response), (check_has_disclaimer response),
    (check_has_confidence_score response), (check_has_reasoning response),
    (check_no_hallucination response _).
  reflexivity.
Qed.

Lemma validate_score {F} `{Num F} response data_context :
  let v := validate (F := F) response data_context in
  score v = (of_Z (Z.of_nat (count_true (passed_flags v))) / of_Z 5)%num.
Proof.
  unfold validate, passed_flags.
  destruct (check_overconfidence response), (check_has_disclaimer response),
    (check_has_confidence_score response), (check_has_reasoning response),
    (check_no_hallucination response _).
  reflexivity.
Qed.

Lemma validate_all_passed {F} `{Num F} response data_context :
  let v := validate (F := F) response data_context in
  all_passed v = all (passed_flags v).
Proof.
  unfold validate, passed_flags.
  destruct (check_overconfidence response), (check_has_disclaimer response),
    (check_has_confidence_score response), (check_has_reasoning response),
    (check_no_hallucination response _).
  reflexivity.
Qed.

(** The arithmetic of the score, for each of the 32 outcomes. *)
Lemma score_of_flags_Q (b1 b2 b3 b4 b5 : bool) :
  let bs := [b1; b2; b3; b4; b5] in
  let s := (inject_Z (Z.of_nat (count_true bs)) / inject_Z 5)%Q in
  (s == Z.of_nat (count_true bs) # 5)%Q /\
  (0 <= s <= 1)%Q /\
  (all bs = true <-> count_true bs = 5) /\
  (all bs = true <-> (s == 1)%Q).
Proof.
  destruct b1, b2, b3, b4, b5; vm_compute;
    (split; [reflexivity|]); (split; [split; discriminate|]);
    split; split; intros E; try reflexivity; discriminate E.
Qed.

Lemma score_of_flags_binary64 (b1 b2 b3 b4 b5 : bool) :
  let bs := [b1; b2; b3; b4; b5] in
  all bs = PrimFloat.eqb (float_of_Z (Z.of_nat (count_true bs)) / float_of_Z 5)
                         1%float.
Proof.
  destruct b1, b2, b3, b4, b5; vm_compute; reflexivity.
Qed.

Lemma passed_flags_five {F} (v : verdict F) :
  exists b1 b2 b3 b4 b5, passed_flags v = [b1; b2; b3; b4; b5].
Proof. unfold passed_flags. eauto 6. Qed.

(** C1. For every response and every list of data fragments, the flags
    of the verdict are the results of the five checks, its score is the
    number of checks passed over five, and [all_passed] holds exactly
    when all five passed, which is exactly when the score equals 1.0 --
    in exact arithmetic and in binary64 alike. *)
Theorem validate_score_is_fraction_passed
    (response : text) (data_context : option (list text)) :
  let v := validate (F := Q) response data_context in
  let n := count_true (passed_flags v) in
  passed_flags v =
    [ fst (check_overconfidence response);
      fst (check_has_disclaimer response);
      fst (check_has_confidence_score response);
      fst (check_has_reasoning response);
      fst (check_no_hallucination response
             (match data_context with Some l => l | None => [] end)) ] /\
  (score v == Z.of_nat n # 5)%Q /\
  (0 <= score v <= 1)%Q /\
  (all_passed v = true <-> n = 5) /\
  (all_passed v = true <-> (score v == 1)%Q) /\
  let v64 := validate (F := float) response data_context in
  passed_flags v64 = passed_flags v /\
  all_passed v64 = PrimFloat.eqb (score v64) 1%float.
Proof.
  intros v n. subst n. split; [apply validate_flags|].
  pose proof (validate_score (F := Q) response data_context) as Hs.
  pose proof (validate_all_passed (F := Q) response data_context) as Ha.
  pose proof (validate_score (F := float) response data_context) as Hs64.
  pose proof (validate_all_passed (F := float) response data_context) as Ha64.
  cbv zeta in Hs, Ha, Hs64, Ha64. fold v in Hs, Ha.
  assert (E64 : passed_flags (validate (F := float) response data_context)
                = passed_flags v)
    by (unfold v; now rewrite !validate_flags).
  rewrite E64 in Hs64, Ha64.
  destruct (passed_flags_five v) as (b1 & b2 & b3 & b4 & b5 & E).
  rewrite E in *. rewrite Hs, Ha.
  destruct (score_of_flags_Q b1 b2 b3 b4 b5) as (H1 & H2 & H3 & H4).
  repeat (split; [assumption|]).
  rewrite Ha64, Hs64. apply score_of_flags_binary64.
Qed.

End GuardrailFacts.

Section GuardrailExample.
Import Text Regex Guardrails.

Lemma filter_none {A} (f : A -> bool) (l : list A) :
  (forall x, In x l -> f x = false) -> List.filter f l = [].
Proof.
  induction l as [|a l IH]; intros Hf; [reflexivity|].
  simpl. rewrite (Hf a (or_introl eq_refl)). apply IH.
  intros x Hx. apply Hf. now right.
Qed.

(** A computable test for "none of these phrases occurs". *)
Lemma none_occurs_test (phrases : list text) (t : text) :
  forallb (fun p => negb (contains p t)) phrases = true ->
  forall p, In p phrases -> ~ occurs p t.
Proof.
  intros Hall p Hp. rewrite forallb_forall in Hall.
  apply not_contains_occurs. specialize (Hall p Hp).
  now destruct (contains p t).
Qed.

Lemma overconfident_phrases_lower :
  forall p, In p OVERCONFIDENT_PHRASES -> lower p = p.
Proof.
  intros p Hp. unfold OVERCONFIDENT_PHRASES in Hp. simpl in Hp.
  repeat (destruct Hp as [<-|Hp]; [reflexivity|]). contradiction.
Qed.

Lemma predictive_patterns_lower :
  forall p, In p predictive_patterns -> lower p = p.
Proof.
  intros p Hp. unfold predictive_patterns in Hp. simpl in Hp.
  repeat (destruct Hp as [<-|Hp]; [reflexivity|]). contradiction.
Qed.

(** A text free of the overconfident phrases passes the first check. *)
Lemma check_overconfidence_clean t :
  (forall p, In p OVERCONFIDENT_PHRASES -> ~ occurs p (lower t)) ->
  check_overconfidence t = (true, []).
Proof.
  intros Hnone. unfold check_overconfidence.
  rewrite filter_none; [reflexivity|].
  intros p Hp. destruct (search _ _ _) eqn:Hs; [|reflexivity].
  exfalso. apply (Hnone p Hp).
  apply search_word_occurs in Hs.
  now rewrite lower_idem, (overconfident_phrases_lower p Hp) in Hs.
Qed.

(** The disclaimer, in any case, passes the second check. *)
Lemma check_has_disclaimer_found t :
  occurs REQUIRED_DISCLAIMER (lower t) ->
  fst (check_has_disclaimer t) = true.
Proof.
  intros Ho. unfold check_has_disclaimer.
  apply contains_occurs in Ho. now rewrite Ho.
Qed.

#[local] Ltac char_at :=
  rewrite nth_error_middle by (simpl; lia); reflexivity.

(** ["Confidence: 0.72"] carries a confidence label followed by a
    number. *)
Lemma confidence_label_found t :
  occurs (T "Confidence: 0.72") t ->
  search true confidence_label_pattern t = true.
Proof.
  intros [pre [post ->]]. apply search_spec.
  exists (0 + length pre). split.
  { rewrite !length_app. simpl. lia. }
  apply matches_at_In. exists (13 + length pre).
  unfold confidence_label_pattern.
  apply In_ends_Seq with (j := 10 + length pre).
  { simpl ends at 1. apply in_or_app. left.
    apply (In_ends_lit true pre (T "Confidence: 0.72") post
                       (T "confidence") 0).
    - simpl. repeat constructor.
    - simpl. lia. }
  apply In_ends_Seq with (j := 11 + length pre).
  { apply In_ends_Chr with (x := ":"%char); [char_at | reflexivity]. }
  apply In_ends_Seq with (j := 12 + length pre).
  { apply In_ends_Many_step with (x := " "%char); [char_at | reflexivity |].
    apply In_ends_Many_zero. }
  apply In_ends_Seq with (j := 13 + length pre).
  { apply In_ends_Cls with (x := "0"%char); [char_at | reflexivity]. }
  apply In_ends_Many_zero.
Qed.

Lemma check_has_confidence_score_found t :
  occurs (T "Confidence: 0.72") t ->
  fst (check_has_confidence_score t) = true.
Proof.
  intros Ho. unfold check_has_confidence_score.
  now rewrite (confidence_label_found t Ho).
Qed.

(** Two analytic terms pass the fourth check. *)
Lemma check_has_reasoning_two t a b :
  a <> b -> In a reasoning_indicators -> In b reasoning_indicators ->
  occurs a (lower t) -> occurs b (lower t) ->
  fst (check_has_reasoning t) = true.
Proof.
  intros Hab Ha Hb Oa Ob. unfold check_has_reasoning.
  apply contains_occurs in Oa, Ob.
  pose proof (filter_two (fun ind => contains ind (lower t)) _ a b
                         Hab Ha Hb Oa Ob) as Hlen.
  apply Nat.leb_le in Hlen. now rewrite Hlen.
Qed.

(** The ["0"] of ["Confidence: 0.72"] is a number for [findall]: it
    follows a space and is followed by a full stop. *)
Lemma number_found t :
  occurs (T "Confidence: 0.72") t ->
  findall false number_pattern t <> [].
Proof.
  intros [pre [post ->]].
  apply findall_nonempty with (i := 12 + length pre).
  2:{ rewrite !length_app. simpl. lia. }
  apply matches_at_In. exists (13 + length pre).
  assert (B12 : boundary (pre ++ T "Confidence: 0.72" ++ post)
                         (12 + length pre) = true).
  { apply (boundary_middle pre _ post 11); [simpl; lia | reflexivity]. }
  assert (B13 : boundary (pre ++ T "Confidence: 0.72" ++ post)
                         (13 + length pre) = true).
  { apply (boundary_middle pre _ post 12); [simpl; lia | reflexivity]. }
  unfold number_pattern.
  apply In_ends_Seq with (j := 12 + length pre).
  { cbn [ends]. rewrite B12. now left. }
  apply In_ends_Seq with (j := 13 + length pre).
  { apply In_ends_Seq with (j := 13 + length pre).
    - apply In_ends_Cls with (x := "0"%char); [char_at | reflexivity].
    - apply In_ends_Many_zero. }
  apply In_ends_Seq with (j := 13 + length pre).
  { apply In_ends_Opt_skip. }
  apply In_ends_Seq with (j := 13 + length pre).
  { apply In_ends_Many_zero. }
  apply In_ends_Seq with (j := 13 + length pre).
  { apply In_ends_Opt_skip. }
  cbn [ends]. rewrite B13. now left.
Qed.

Lemma predictive_clean t :
  (forall p, In p predictive_patterns -> ~ occurs p (lower t)) ->
  List.filter (fun pattern => search true (lit pattern) t)
              predictive_patterns = [].
Proof.
  intros Hnone. apply filter_none. intros p Hp.
  destruct (search _ _ _) eqn:Hs; [|reflexivity].
  exfalso. apply (Hnone p Hp).
  apply search_lit_occurs in Hs.
  now rewrite (predictive_patterns_lower p Hp) in Hs.
Qed.

(** With a number in the text, the fifth check turns on whether any
    data fragment was supplied. *)
Lemma check_no_hallucination_number t ctx :
  occurs (T "Confidence: 0.72") t ->
  (forall p, In p predictive_patterns -> ~ occurs p (lower t)) ->
  fst (check_no_hallucination t ctx) = (0 <? length ctx).
Proof.
  intros Ho Hnone. unfold check_no_hallucination.
  rewrite (predictive_clean t Hnone). simpl map. rewrite app_nil_r.
  pose proof (number_found t Ho) as Hn.
  destruct (findall false number_pattern t) as [|m ms]; [contradiction|].
  destruct ctx; reflexivity.
Qed.

(** The hypotheses of the example of the specification. *)
Definition example_text (t : text) : Prop :=
  occurs (T "Confidence: 0.72") t /\
  occurs (T "not financial advice") t /\
  (exists a b, a <> b /\ In a reasoning_indicators /\
               In b reasoning_indicators /\
               occurs a (lower t) /\ occurs b (lower t)) /\
  (forall p, In p OVERCONFIDENT_PHRASES -> ~ occurs p (lower t)) /\
  (forall p, In p predictive_patterns -> ~ occurs p (lower t)).

Lemma example_flags t ctx :
  example_text t ->
  passed_flags (validate (F := Q) t ctx) =
  [ true; true; true; true;
    0 <? length (match ctx with Some l => l | None => [] end) ].
Proof.
  intros (Hconf & Hdisc & (a & b & Hab & Ha & Hb & Oa & Ob) & Hover & Hpred).
  rewrite validate_flags.
  rewrite (check_overconfidence_clean t Hover).
  rewrite (check_has_disclaimer_found t (occurs_lower _ _ Hdisc)).
  rewrite (check_has_confidence_score_found t Hconf).
  rewrite (check_has_reasoning_two t a b Hab Ha Hb Oa Ob).
  rewrite (check_no_hallucination_number t _ Hconf Hpred).
  reflexivity.
Qed.

Definition sample_response : text :=
  T "RSI and momentum are firm. Confidence: 0.72. This is not financial advice.".

Lemma sample_response_is_example : example_text sample_response.
Proof.
  unfold example_text. repeat split.
  - apply contains_occurs. reflexivity.
  - apply contains_occurs. reflexivity.
  - exists (T "rsi"), (T "momentum").
    split; [discriminate|]. split; [simpl; tauto|]. split; [simpl; tauto|].
    split; apply contains_occurs; reflexivity.
  - apply none_occurs_test. reflexivity.
  - apply none_occurs_test. reflexivity.
Defined.

(** C2, as amended. For every response that contains "Confidence: 0.72",
    the phrase "not financial advice", at least two analytic terms, no
    overconfident phrase and no predictive phrasing: validated with at
    least one supporting data fragment, all five checks pass and the
    score is 1.0; validated with none (the default), the first four
    checks pass, the hallucination check fails on the number in the
    text, and the score is 0.8. *)
Theorem validate_example_needs_data_context (t : text) :
  example_text t ->
  (forall ctx, ctx <> [] ->
     let v := validate (F := Q) t (Some ctx) in
     passed_flags v = [true; true; true; true; true] /\
     all_passed v = true /\ (score v == 1)%Q) /\
  (forall ctx, ctx = None \/ ctx = Some [] ->
     let v := validate (F := Q) t ctx in
     passed_flags v = [true; true; true; true; false] /\
     all_passed v = false /\ (score v == 4 # 5)%Q).
Proof.
  intros Hex. split.
  - intros ctx Hne v.
    assert (E : passed_flags v = [true; true; true; true; true]).
    { unfold v. rewrite (example_flags t _ Hex). destruct ctx; [contradiction | reflexivity]. }
    split; [exact E|].
    unfold v. rewrite validate_all_passed, validate_score. fold v. rewrite E.
    split; reflexivity.
  - intros ctx Hctx v.
    assert (E : passed_flags v = [true; true; true; true; false]).
    { unfold v. rewrite (example_flags t _ Hex). destruct Hctx as [->| ->]; reflexivity. }
    split; [exact E|].
    unfold v. rewrite validate_all_passed, validate_score. fold v. rewrite E.
    split; reflexivity.
Qed.

Lemma validate_example_needs_data_context_witness :
  let v := validate (F := Q) sample_response None in
  passed_flags v = [true; true; true; true; false] /\
  all_passed v = false /\ (score v == 4 # 5)%Q.
Proof.
  apply (validate_example_needs_data_context sample_response
           sample_response_is_example).
  now left.
Defined.

(** The example as the specification words it fails on a response that
    meets every one of its conditions: called without data fragments,
    the hallucination check does not pass and the score is not 1.0. *)
Lemma validate_example_without_context_fails :
  example_text sample_response /\
  let v := validate (F := Q) sample_response None in
  passed (hallucination (verdict_checks v)) = false /\
  all_passed v = false /\
  ~ (score v == 1)%Q.
Proof.
  split; [exact sample_response_is_example|].
  vm_compute. repeat split; try reflexivity. discriminate.
Qed.

End GuardrailExample.

(* ===================================================================== *)
(** * The indicators, in exact arithmetic *)
(* ===================================================================== *)

Section RsiFacts.
Import Indicators.
#[local] Open Scope Q_scope.

(** The specification's wording of the RSI, kept apart from the code.
    The differences of the series are [delta 1 .. delta period]; the
    first [period + 1] entries of [prices.diff()] are these preceded by
    the undefined entry of the first point.  "Average" divides by
    [period]. *)
Definition delta (prices : list Q) (k : nat) : Q :=
  nth k prices 0 - nth (k - 1) prices 0.

(** The positive part of a difference, and the magnitude of a negative
    one. *)
Definition gain (d : Q) : Q := if Qle_bool d 0 then 0 else d.
Definition loss (d : Q) : Q := if Qle_bool 0 d then 0 else - d.

Definition Qsum (l : list Q) : Q := fold_right Qplus 0 l.

Definition avg_gain (prices : list Q) (period : nat) : Q :=
  Qsum (map (fun k => gain (delta prices k)) (seq 1 period))
  / inject_Z (Z.of_nat period).

Definition avg_loss (prices : list Q) (period : nat) : Q :=
  Qsum (map (fun k => loss (delta prices k)) (seq 1 period))
  / inject_Z (Z.of_nat period).

Definition relative_strength (prices : list Q) (period : nat) : Q :=
  if Qeq_bool (avg_loss prices period) 0 then 0
  else avg_gain prices period / avg_loss prices period.

Lemma Qle_bool_false x y : Qle_bool x y = false -> y < x.
Proof.
  intros E. apply Qnot_le_lt. intros Hle.
  apply Qle_bool_iff in Hle. congruence.
Qed.

Lemma fold_left_Qplus (l : list Q) (a : Q) :
  fold_left Qplus l a == a + Qsum l.
Proof.
  revert a. induction l as [|x l IH]; intros a; simpl.
  - ring.
  - rewrite IH. ring.
Qed.

Lemma sum_Qsum (l : list Q) : sum (F := Q) l == Qsum l.
Proof.
  unfold sum. simpl. rewrite fold_left_Qplus. ring.
Qed.

Lemma select_Some (cond : Q -> bool) (l : list Q) :
  select cond (None :: map Some l) = List.filter cond l.
Proof.
  unfold select. simpl.
  induction l as [|d l IH]; [reflexivity|].
  simpl. destruct (cond d); simpl; now rewrite IH.
Qed.

(** Summing the entries that are at least zero adds up the gains... *)
Lemma Qsum_filter_gain (l : list Q) :
  Qsum (List.filter (fun d => Qle_bool 0 d) l) == Qsum (map gain l).
Proof.
  induction l as [|d l IH]; [reflexivity|].
  simpl. unfold gain at 1.
  destruct (Qle_bool 0 d) eqn:E1, (Qle_bool d 0) eqn:E2; simpl; rewrite IH;
    try ring.
  - apply Qle_bool_iff in E1, E2.
    assert (d == 0) as -> by (apply Qle_antisym; assumption). reflexivity.
  - exfalso. apply Qle_bool_false in E1, E2. lra.
Qed.

(** ... and minus the sum of the negative entries adds up the losses. *)
Lemma Qsum_filter_loss (l : list Q) :
  - Qsum (List.filter (fun d => negb (Qle_bool 0 d)) l) == Qsum (map loss l).
Proof.
  induction l as [|d l IH]; [reflexivity|].
  simpl. unfold loss at 1.
  destruct (Qle_bool 0 d); simpl; rewrite <- IH; ring.
Qed.

Lemma Qsum_nonneg (l : list Q) : Forall (fun x => 0 <= x) l -> 0 <= Qsum l.
Proof.
  induction 1 as [|x l Hx _ IH]; simpl; [apply Qle_refl | lra].
Qed.

Lemma gain_nonneg d : 0 <= gain d.
Proof.
  unfold gain. destruct (Qle_bool d 0) eqn:E; [apply Qle_refl|].
  apply Qle_bool_false in E. lra.
Qed.

Lemma loss_nonneg d : 0 <= loss d.
Proof.
  unfold loss. destruct (Qle_bool 0 d) eqn:E; [apply Qle_refl|].
  apply Qle_bool_false in E. lra.
Qed.

Lemma delta_shift p x l k :
  (1 <= k)%nat -> delta (p :: x :: l) (S k) = delta (x :: l) k.
Proof.
  intros Hk. unfold delta. destruct k as [|k]; [lia|].
  simpl. now rewrite Nat.sub_0_r.
Qed.

(** The first [period] differences of the code are the differences of
    the specification. *)
Lemma diffs_from_delta p rest period :
  (period <= length rest)%nat ->
  firstn period (diffs_from p rest)
  = map (delta (p :: rest)) (seq 1 period).
Proof.
  revert p rest. induction period as [|n IH]; intros p rest Hlen;
    [reflexivity|].
  destruct rest as [|x l]; [simpl in Hlen; lia|].
  simpl in Hlen. cbn [diffs_from firstn seq map].
  f_equal. rewrite IH by lia.
  rewrite <- (seq_shift n 1), map_map.
  apply map_ext_in. intros k Hk. apply in_seq in Hk.
  symmetry. apply delta_shift. lia.
Qed.

Lemma seed_of_diff p rest period :
  (period <= length rest)%nat ->
  firstn (period + 1) (diff (p :: rest))
  = None :: map Some (map (delta (p :: rest)) (seq 1 period)).
Proof.
  intros Hlen. rewrite Nat.add_1_r. cbn [diff firstn].
  now rewrite firstn_map, diffs_from_delta.
Qed.

Lemma period_positive (period : nat) :
  (0 < period)%nat -> 0 < inject_Z (Z.of_nat period).
Proof. intros Hp. unfold Qlt. simpl. lia. Qed.

Lemma avg_gain_nonneg prices period :
  (0 < period)%nat -> 0 <= avg_gain prices period.
Proof.
  intros Hp. unfold avg_gain.
  apply Qle_shift_div_l; [now apply period_positive|].
  rewrite Qmult_0_l. apply Qsum_nonneg.
  apply List.Forall_forall. intros x Hx. apply in_map_iff in Hx.
  destruct Hx as [k [<- _]]. apply gain_nonneg.
Qed.

Lemma avg_loss_nonneg prices period :
  (0 < period)%nat -> 0 <= avg_loss prices period.
Proof.
  intros Hp. unfold avg_loss.
  apply Qle_shift_div_l; [now apply period_positive|].
  rewrite Qmult_0_l. apply Qsum_nonneg.
  apply List.Forall_forall. intros x Hx. apply in_map_iff in Hx.
  destruct Hx as [k [<- _]]. apply loss_nonneg.
Qed.

Lemma relative_strength_nonneg prices period :
  (0 < period)%nat -> 0 <= relative_strength prices period.
Proof.
  intros Hp. unfold relative_strength.
  destruct (Qeq_bool (avg_loss prices period) 0) eqn:E; [apply Qle_refl|].
  apply Qeq_bool_neq in E.
  pose proof (avg_loss_nonneg prices period Hp) as Hl.
  pose proof (avg_gain_nonneg prices period Hp) as Hg.
  apply Qle_shift_div_l; [|lra].
  destruct (Qlt_le_dec 0 (avg_loss prices period)) as [Hlt|Hle]; [exact Hlt|].
  exfalso. apply E. lra.
Qed.

(** [100 - 100/(1 + rs)] stays within [0, 100] when [rs] is not
    negative. *)
Lemma rsi_range (rs : Q) : 0 <= rs -> 0 <= 100 - 100 / (1 + rs) <= 100.
Proof.
  intros Hrs.
  assert (Hx : 0 < 1 + rs) by lra.
  assert (H1 : 100 / (1 + rs) <= 100)
    by (apply Qle_shift_div_r; [exact Hx | lra]).
  assert (H2 : 0 <= 100 / (1 + rs))
    by (apply Qle_shift_div_l; [exact Hx | lra]).
  lra.
Qed.

(** The code on a series long enough, with its two averages named. *)
Lemma calculate_rsi_unfold p rest period :
  (period <= length rest)%nat ->
  exists up down,
    up == avg_gain (p :: rest) period /\
    down == avg_loss (p :: rest) period /\
    calculate_rsi (F := Q) (p :: rest) period
    = Some (100 - 100 / (1 + (if negb (Qeq_bool down 0) then up / down else 0))).
Proof.
  intros Hlen. unfold calculate_rsi.
  destruct (Nat.ltb_spec (length (p :: rest)) (period + 1)) as [Hlt|_];
    [simpl in Hlt; lia|].
  rewrite (seed_of_diff p rest period Hlen), !select_Some.
  eexists _, _. split; [|split; [|reflexivity]].
  - cbn [fdiv of_Z fleb Q_Num]. unfold avg_gain.
    now rewrite sum_Qsum, Qsum_filter_gain, map_map.
  - cbn [fdiv fopp of_Z fltb Q_Num]. unfold avg_loss.
    now rewrite sum_Qsum, Qsum_filter_loss, map_map.
Qed.

(** C3. For a period of at least one point: a series shorter than
    [period + 1] points has no RSI; a longer one has the RSI
    [100 - 100/(1 + RS)], where RS is the average gain over the average
    loss of the first [period] differences of the series (the first
    [period + 1] entries of its difference series), and 0 when the
    average loss is 0; the value lies in [0, 100]. *)
Theorem calculate_rsi_is_wilder_formula (prices : list Q) (period : nat) :
  (0 < period)%nat ->
  ((length prices < period + 1)%nat ->
     calculate_rsi (F := Q) prices period = None) /\
  ((period + 1 <= length prices)%nat ->
     exists rsi,
       calculate_rsi (F := Q) prices period = Some rsi /\
       rsi == 100 - 100 / (1 + relative_strength prices period) /\
       0 <= rsi <= 100).
Proof.
  intros Hp. split.
  - intros Hshort. unfold calculate_rsi.
    apply Nat.ltb_lt in Hshort. now rewrite Hshort.
  - intros Hlong. destruct prices as [|p rest]; [simpl in Hlong; lia|].
    simpl in Hlong.
    destruct (calculate_rsi_unfold p rest period ltac:(lia))
      as (up & down & Hup & Hdown & ->).
    eexists. split; [reflexivity|].
    assert (Hrs : (if negb (Qeq_bool down 0) then up / down else 0)
                  == relative_strength (p :: rest) period).
    { unfold relative_strength.
      rewrite <- (Qeqb_comp _ _ Hdown 0 0 (Qeq_refl 0)).
      destruct (Qeq_bool down 0); simpl; [reflexivity|].
      now rewrite Hup, Hdown. }
    split.
    + now rewrite Hrs.
    + rewrite Hrs. apply rsi_range. now apply relative_strength_nonneg.
Qed.

Lemma calculate_rsi_is_wilder_formula_witness :
  exists rsi,
    calculate_rsi (F := Q) [100; 101; 102; 101] 3 = Some rsi /\
    rsi == 100 - 100 / (1 + relative_strength [100; 101; 102; 101] 3) /\
    0 <= rsi <= 100.
Proof.
  apply (proj2 (calculate_rsi_is_wilder_formula [100; 101; 102; 101] 3
                  ltac:(lia))).
  simpl. lia.
Defined.

End RsiFacts.

Section RsiBinary64.
Import Indicators.

(** Two finite prices so far apart that the sum of two gains between
    them exceeds the largest double. *)
Definition swinging_prices : list float :=
  [0; 0x1p1023; 0; 0x1p1023; 0]%float.

(** As the code computes it, in binary64, a series with at least
    [period + 1] points can have an RSI outside [0, 100].  With
    [period = 0] both averages are 0/0; on the finite prices of
    [swinging_prices], with [period = 4], the sum of the gains and the
    sum of the losses overflow and the relative strength is inf/inf.
    Both times the value returned is NaN, which is neither at least 0
    nor at most 100. *)
Lemma calculate_rsi_not_a_number :
  ((0 + 1 <= length [1; 2]%float)%nat /\
   exists rsi,
     calculate_rsi (F := float) [1; 2]%float 0 = Some rsi /\
     PrimFloat.is_nan rsi = true /\
     (0 <=? rsi)%float = false /\ (rsi <=? 100)%float = false) /\
  ((4 + 1 <= length swinging_prices)%nat /\
   List.Forall (fun p => PrimFloat.is_finite p = true) swinging_prices /\
   exists rsi,
     calculate_rsi (F := float) swinging_prices 4 = Some rsi /\
     PrimFloat.is_nan rsi = true /\
     (0 <=? rsi)%float = false /\ (rsi <=? 100)%float = false).
Proof.
  split.
  - split; [simpl; lia|]. eexists. split; [vm_compute; reflexivity|].
    repeat split; vm_compute; reflexivity.
  - split; [simpl; lia|]. split; [repeat constructor|].
    eexists. split; [vm_compute; reflexivity|].
    repeat split; vm_compute; reflexivity.
Qed.

End RsiBinary64.

Section MomentumFacts.
Import Indicators.
#[local] Open Scope Q_scope.

Definition strictly_increasing (l : list Q) : Prop :=
  forall i j, (i < j < length l)%nat -> nth i l 0 < nth j l 0.

Lemma iloc_neg_nth (prices : list Q) k :
  (1 <= k <= length prices)%nat ->
  iloc_neg prices k = Ret (nth (length prices - k) prices 0).
Proof.
  intros [Hk1 Hk2]. unfold iloc_neg.
  destruct (Nat.eqb_spec k 0) as [?|_]; [lia|].
  destruct (Nat.ltb_spec (length prices) k) as [?|_]; [lia|].
  rewrite (nth_error_nth' prices 0) by lia. reflexivity.
Qed.

(** C6, as amended. For every strictly increasing series of positive
    prices with at least [period] points, [period] being at least 2,
    the momentum is present and strictly positive; it is the percent
    change between the last price and the price [period - 1] points
    before it (the [period]-th price from the end). *)
Theorem calculate_momentum_positive (prices : list Q) (period : nat) :
  (2 <= period <= length prices)%nat ->
  strictly_increasing prices ->
  Forall (fun p => 0 < p) prices ->
  let current := nth (length prices - 1) prices 0 in
  let past := nth (length prices - 1 - (period - 1)) prices 0 in
  exists momentum,
    calculate_momentum (F := Q) prices period = Ret (Some momentum) /\
    momentum == (current - past) / past * 100 /\
    0 < momentum.
Proof.
  intros [Hp Hlen] Hinc Hpos. cbv zeta.
  replace (length prices - 1 - (period - 1))%nat
    with (length prices - period)%nat by lia.
  set (current := nth (length prices - 1) prices 0).
  set (past := nth (length prices - period) prices 0).
  unfold calculate_momentum.
  destruct (Nat.ltb_spec (length prices) period) as [?|_]; [lia|].
  rewrite !iloc_neg_nth by lia. fold current past.
  eexists. split; [reflexivity|].
  cbn [fmul fdiv fsub of_Z Q_Num]. split; [reflexivity|].
  assert (Hpast : 0 < past).
  { rewrite List.Forall_forall in Hpos. apply Hpos. apply nth_In. lia. }
  assert (Hup : past < current) by (apply Hinc; lia).
  assert (Hq : 0 < (current - past) / past)
    by (apply Qlt_shift_div_l; [exact Hpast | lra]).
  change (inject_Z 100) with 100. lra.
Qed.

Lemma calculate_momentum_positive_witness :
  exists momentum,
    calculate_momentum (F := Q) [100; 101; 102] 2 = Ret (Some momentum) /\
    momentum == (102 - 101) / 101 * 100 /\
    0 < momentum.
Proof.
  apply (calculate_momentum_positive [100; 101; 102] 2).
  - simpl. lia.
  - intros i j [Hij Hj]. simpl in Hj.
    destruct i as [|[|[|i]]], j as [|[|[|j]]]; simpl; try lia; reflexivity.
  - repeat constructor.
Defined.

(** With [period = 1] the code compares the last price with itself: on
    a strictly increasing series of three points the momentum is zero,
    in exact arithmetic and in binary64. *)
Lemma calculate_momentum_zero_at_period_one :
  strictly_increasing [100; 101; 102] /\
  (1 <= length [100; 101; 102])%nat /\
  (exists momentum,
     calculate_momentum (F := Q) [100; 101; 102] 1 = Ret (Some momentum) /\
     ~ 0 < momentum) /\
  calculate_momentum (F := float) [100; 101; 102]%float 1
  = Ret (Some 0%float).
Proof.
  split; [|split; [|split]].
  - intros i j [Hij Hj]. simpl in Hj.
    destruct i as [|[|[|i]]], j as [|[|[|j]]]; simpl; try lia; reflexivity.
  - simpl. lia.
  - eexists. split; [reflexivity|]. vm_compute. discriminate.
  - vm_compute. reflexivity.
Qed.

End MomentumFacts.

Section SignalFacts.
Import Indicators.
#[local] Open Scope Q_scope.

(** The bands of the specification, each with its contribution. *)
Definition rsi_contribution (rsi c : Q) : Prop :=
  (rsi < 30 -> c == 2) /\
  (30 <= rsi < 40 -> c == 1) /\
  (40 <= rsi <= 60 -> c == 0) /\
  (60 < rsi <= 70 -> c == -1) /\
  (70 < rsi -> c == -2).

Definition momentum_contribution (momentum c : Q) : Prop :=
  (5 < momentum -> c == 1) /\
  (0 < momentum <= 5 -> c == 1 # 2) /\
  (momentum == 0 -> c == 0) /\
  (-5 <= momentum < 0 -> c == - (1 # 2)) /\
  (momentum < -5 -> c == -1).

(** Damping by 0.8 when the volatility is present and exceeds 30. *)
Definition damped (volatility : option Q) (s s' : Q) : Prop :=
  match volatility with
  | Some v => (30 < v -> s' == s * (8 # 10)) /\ (v <= 30 -> s' == s)
  | None => s' == s
  end.

Definition label_of (s : Q) (label : string) : Prop :=
  (2 <= s -> label = "strong_buy"%string) /\
  (1 # 2 <= s < 2 -> label = "buy"%string) /\
  (- (1 # 2) < s < 1 # 2 -> label = "neutral"%string) /\
  (-2 < s <= - (1 # 2) -> label = "sell"%string) /\
  (s <= -2 -> label = "strong_sell"%string).

Lemma Qltb_spec (a b : Q) :
  BoolSpec (a < b) (b <= a) (fltb (F := Q) a b).
Proof.
  cbn [fltb Q_Num]. destruct (Qle_bool b a) eqn:E; constructor.
  - now apply Qle_bool_iff.
  - now apply Qle_bool_false.
Qed.

Lemma Qleb_spec (a b : Q) :
  BoolSpec (a <= b) (b < a) (fleb (F := Q) a b).
Proof.
  cbn [fleb Q_Num]. destruct (Qle_bool a b) eqn:E; constructor.
  - now apply Qle_bool_iff.
  - now apply Qle_bool_false.
Qed.

(** The literals of the code as rationals. *)
#[local] Ltac literals :=
  change (ratio (F := Q) 1 2) with (1 # 2) in *;
  change (ratio (F := Q) (-1) 2) with (-1 # 2) in *;
  change (ratio (F := Q) 4 5) with (4 # 5) in *;
  cbn [fadd fsub fmul feqb of_Z Q_Num] in *;
  unfold inject_Z in *.

(** C4. The label is always one of the five; it is neutral as soon as
    the RSI or the momentum is absent; and for present RSI and momentum
    it is the label of the score that adds the contribution of the RSI
    band and that of the momentum band, damped by 0.8 when the
    volatility exceeds 30. *)
Theorem get_signal_strength_weighted_score
    (rsi momentum volatility : option Q) :
  In (get_signal_strength rsi momentum volatility) signal_labels /\
  (rsi = None \/ momentum = None ->
   get_signal_strength rsi momentum volatility = "neutral"%string) /\
  (forall r m, rsi = Some r -> momentum = Some m ->
   exists c1 c2 s,
     rsi_contribution r c1 /\
     momentum_contribution m c2 /\
     damped volatility (c1 + c2) s /\
     label_of s (get_signal_strength rsi momentum volatility)).
Proof.
  split; [|split].
  - unfold get_signal_strength, signal_labels.
    destruct rsi, momentum; simpl In; try tauto.
    repeat match goal with
           | |- context [if ?b then _ else _] => destruct b
           end; simpl; tauto.
  - intros [-> | ->]; [reflexivity | now destruct rsi].
  - intros r m -> ->.
    assert (exists s1 s2 s3 : Q,
      rsi_contribution r s1 /\ momentum_contribution m (s2 - s1) /\
      damped volatility s2 s3 /\
      get_signal_strength (Some r) (Some m) volatility
      = (if (of_Z 2 <=? s3)%num then "strong_buy"
         else if (ratio 1 2 <=? s3)%num then "buy"
         else if (s3 <=? of_Z (-2))%num then "strong_sell"
         else if (s3 <=? ratio (-1) 2)%num then "sell"
         else "neutral")%string) as (s1 & s2 & s3 & H1 & H2 & H3 & ->).
    { cbv beta zeta iota delta [get_signal_strength].
      match goal with
      | |- context [if (r <? of_Z 30)%num then ?a else ?b] =>
          set (s1 := if (r <? of_Z 30)%num then a else b)
      end.
      match goal with
      | |- context [if (of_Z 5 <? m)%num then ?a else ?b] =>
          set (s2 := if (of_Z 5 <? m)%num then a else b)
      end.
      exists s1, s2.
      assert (H1 : rsi_contribution r s1).
      { subst s1. unfold rsi_contribution.
        destruct (Qltb_spec r (of_Z 30)), (Qltb_spec r (of_Z 40)),
          (Qltb_spec (of_Z 70) r), (Qltb_spec (of_Z 60) r);
          literals; repeat split; intros; lra. }
      assert (H2 : momentum_contribution m (s2 - s1)).
      { subst s2. clearbody s1. unfold momentum_contribution.
        destruct (Qltb_spec (of_Z 5) m), (Qltb_spec (of_Z 0) m),
          (Qltb_spec m (of_Z (-5))), (Qltb_spec m (of_Z 0));
          literals; repeat split; intros; lra. }
      clearbody s2 s1.
      destruct volatility as [v|].
      - eexists. split; [exact H1|]. split; [exact H2|].
        split; [|reflexivity].
        unfold damped.
        destruct (Qltb_spec (of_Z 30) v) as [Hv|Hv]; literals.
        + destruct (Qeq_bool v 0) eqn:E.
          * apply Qeq_bool_eq in E. exfalso. lra.
          * cbn [negb andb]. split; intros; lra.
        + rewrite andb_false_r. split; intros; lra.
      - exists s2. split; [exact H1|]. split; [exact H2|].
        split; [|reflexivity]. simpl. reflexivity. }
    exists s1, (s2 - s1), s3.
    split; [exact H1|]. split; [exact H2|]. split.
    { unfold damped in *. destruct volatility as [v|].
      - destruct H3 as [Ha Hb]. split; intros Hv.
        + rewrite (Ha Hv). ring.
        + rewrite (Hb Hv). ring.
      - rewrite H3. ring. }
    unfold label_of.
    destruct (Qleb_spec (of_Z 2) s3), (Qleb_spec (ratio 1 2) s3),
      (Qleb_spec s3 (of_Z (-2))), (Qleb_spec s3 (ratio (-1) 2));
      literals; repeat split; intros; try reflexivity; exfalso; lra.
Qed.

End SignalFacts.

(* ===================================================================== *)
(** * The portfolio example *)
(* ===================================================================== *)

Section PortfolioExample.
Import Portfolio.

(** Holdings [{AAPL: 10, GOOGL: 5}] and prices [{AAPL: 150, GOOGL: 140}]. *)
Definition example_holdings {F} `{Num F} : dict F :=
  [ ("AAPL", of_Z 10); ("GOOGL", of_Z 5) ]%string.

Definition example_prices {F} `{Num F} : gmap string F :=
  <["AAPL"%string := of_Z 150]> (<["GOOGL"%string := of_Z 140]> ∅).

(** [d[k]] on a dictionary given by its items. *)
Definition dict_get {V} (d : dict V) (k : string) : option V :=
  match List.filter (fun kv => String.eqb (fst kv) k) d with
  | (_, v) :: _ => Some v
  | [] => None
  end.

(** C9, as amended. For holdings {AAPL: 10, GOOGL: 5} and prices
    {AAPL: 150, GOOGL: 140} the portfolio value is exactly 2200.  In
    exact arithmetic the allocation is 750/11 and 350/11 percent, which
    sum to 100.  In binary64, as the code computes, the allocation is
    the pair of doubles 68.181818181818173 and 31.818181818181817, each
    within 1e-13 of 750/11 and 350/11 (so about 68.18 and 31.82), and
    their sum is within 1e-13 of 100: 100% within rounding tolerance. *)
Theorem portfolio_example_allocation :
  (* exact arithmetic *)
  (calculate_portfolio_value (F := Q) example_holdings example_prices
   == 2200)%Q /\
  (exists a g : Q,
     calculate_allocation (F := Q) example_holdings example_prices
     = [ ("AAPL"%string, a); ("GOOGL"%string, g) ] /\
     (a == 750 # 11)%Q /\ (g == 350 # 11)%Q /\ (a + g == 100)%Q) /\
  (* binary64 *)
  calculate_portfolio_value (F := float) example_holdings example_prices
  = 2200%float /\
  (exists a g : float,
     calculate_allocation (F := float) example_holdings example_prices
     = [ ("AAPL"%string, a); ("GOOGL"%string, g) ] /\
     float_near a (750 # 11) (1 # 10 ^ 13) = true /\
     float_near g (350 # 11) (1 # 10 ^ 13) = true /\
     float_near a (6818 # 100) (1 # 200) = true /\
     float_near g (3182 # 100) (1 # 200) = true /\
     float_near (a + g) 100 (1 # 10 ^ 13) = true).
Proof.
  split; [reflexivity|]. split.
  { eexists _, _. split; [reflexivity|]. repeat split. }
  split; [vm_compute; reflexivity|].
  eexists _, _. split; [vm_compute; reflexivity|].
  repeat split; vm_compute; reflexivity.
Qed.

(** As the code computes it, neither percentage is exactly its fraction
    and the two do not sum to 100: [allocation["AAPL"] +
    allocation["GOOGL"] == 100] is false. *)
Lemma portfolio_example_sum_is_not_100 :
  let allocation :=
    calculate_allocation (F := float) example_holdings example_prices in
  exists a g : float,
    dict_get allocation "AAPL" = Some a /\
    dict_get allocation "GOOGL" = Some g /\
    (a + g =? 100)%float = false /\
    (exists v, float_to_Q a = Some v /\ ~ (v == 750 # 11)%Q) /\
    (exists v, float_to_Q g = Some v /\ ~ (v == 350 # 11)%Q).
Proof.
  eexists _, _. split; [vm_compute; reflexivity|].
  split; [vm_compute; reflexivity|].
  split; [vm_compute; reflexivity|].
  split; eexists; (split; [vm_compute; reflexivity|]); vm_compute; discriminate.
Qed.

End PortfolioExample.

(* ===================================================================== *)
(** * The data cache *)
(* ===================================================================== *)

Section CacheFacts.
Import StockData.
Context {F : Type} `{Num F}.
Variable env : environment (F := F).

#[local] Ltac run :=
  unfold get_stock_data, cached, fallback, _get_mock_data, random_draw,
    set_cache, set_last_request_time, sleep, bind, ret, self, now;
  cbn [fst snd cache cache_duration use_mock last_request_time
       min_request_interval clock requests_made draws_made trace].

(** A fresh entry is returned as it is: nothing is requested, nothing
    is slept, the object and the world stay as they were, whatever the
    period asked for. *)
Lemma get_stock_data_hit sym period s w ts d :
  cache s !! sym = Some (ts, d) ->
  (clock w - ts < cache_duration s)%Z ->
  get_stock_data env sym period s w = (Some d, s, w).
Proof.
  intros Hc Hfresh. run. rewrite Hc.
  apply Z.ltb_lt in Hfresh. now rewrite Hfresh.
Qed.

(** Building the mock data consumes one batch of random draws and
    touches nothing else. *)
Lemma mock_data_result sym (s : tool (F := F)) w :
  exists data,
    _get_mock_data env sym s w
    = (data, s, {| clock := clock w;
                   requests_made := requests_made w;
                   draws_made := S (draws_made w);
                   trace := trace w |}) /\
    symbol data = str_upper sym.
Proof.
  unfold _get_mock_data, random_draw, bind, now, ret.
  eexists. split; reflexivity.
Qed.

Lemma fallback_cases sym (s : tool (F := F)) w :
  (use_mock s = true /\
   exists data,
     symbol data = str_upper sym /\
     fallback env sym s w
     = (Some data,
        {| cache := <[sym := (clock w, data)]> (cache s);
           cache_duration := cache_duration s;
           use_mock := use_mock s;
           last_request_time := last_request_time s;
           min_request_interval := min_request_interval s |},
        {| clock := clock w;
           requests_made := requests_made w;
           draws_made := S (draws_made w);
           trace := trace w |})) \/
  (use_mock s = false /\ fallback env sym s w = (None, s, w)).
Proof.
  destruct (mock_data_result sym s w) as (data & E & Hsym).
  destruct (use_mock s) eqn:Em; [left|right]; (split; [reflexivity|]).
  - exists data. split; [exact Hsym|].
    unfold fallback, bind, self. cbv beta iota. rewrite Em, E.
    unfold now, set_cache, ret. cbn [clock]. now rewrite Em.
  - unfold fallback, bind, self. cbv beta iota. now rewrite Em.
Qed.

(** The retry loop caches what it returns, and changes nothing when it
    returns nothing. *)
Lemma attempts_result sym period todo s w :
  match attempts env sym period todo s w with
  | (Some d, s', w') =>
      cache s' !! sym = Some (clock w', d) /\
      cache_duration s' = cache_duration s /\
      use_mock s' = use_mock s
  | (None, s', w') => s' = s
  end.
Proof.
  revert s w. induction todo as [|attempt rest IH]; intros s w;
    [reflexivity|].
  cbn [attempts]. unfold bind at 1.
  destruct (_fetch_from_yahoo_api env sym period s w) as [[r s1] w1] eqn:E.
  assert (Es : s1 = s).
  { unfold _fetch_from_yahoo_api, http_get, bind, ret, now in E.
    destruct (reply_of env (requests_made w)) as [c| | |hist];
      try (now inversion E).
    destruct (rev hist); now inversion E. }
  subst s1.
  destruct r as [[data|]|e].
  - run. rewrite lookup_insert_eq. auto.
  - apply IH.
  - destruct e as [|c|]; try reflexivity.
    destruct (c =? 429)%Z; [|reflexivity].
    unfold bind, sleep. apply IH.
Qed.

(** Whatever [get_stock_data] returns is in the cache afterwards, and
    the lifetime of entries is not changed by the call. *)
Lemma get_stock_data_caches_result sym period s w d s' w' :
  get_stock_data env sym period s w = (Some d, s', w') ->
  cache_duration s' = cache_duration s /\
  exists ts, cache s' !! sym = Some (ts, d).
Proof.
  unfold get_stock_data. unfold bind at 1.
  destruct (cached sym s w) as [[hit s0] w0] eqn:Ec.
  assert (Ehit : s0 = s /\ w0 = w /\
                 forall c, hit = Some c -> exists ts, cache s !! sym = Some (ts, c)).
  { revert Ec. unfold cached, bind, self, now, ret.
    destruct (cache s !! sym) as [[ts c]|].
    - destruct (clock w - ts <? cache_duration s)%Z; intros E; inversion E;
        subst; repeat split; try discriminate.
      intros c' Hc'. injection Hc' as <-. now exists ts.
    - intros E; inversion E; subst. repeat split. discriminate. }
  destruct Ehit as (-> & -> & Hhit).
  destruct hit as [c|].
  - unfold ret. intros E. inversion E; subst. split; [reflexivity|].
    now apply Hhit.
  - unfold bind at 1, self. unfold bind at 1, now. unfold bind at 1.
    set (m := if (_ <? _)%Z then _ else _).
    destruct (m s w) as [[[] s1] w1] eqn:Em.
    assert (Es1 : s1 = s).
    { subst m. destruct (_ <? _)%Z; unfold sleep, ret in Em;
        now inversion Em. }
    subst s1. unfold bind at 1.
    pose proof (attempts_result sym period [0; 1; 2]%Z s w1) as Ha.
    destruct (attempts env sym period [0; 1; 2]%Z s w1) as [[r s2] w2].
    destruct r as [data|].
    + destruct Ha as (Hc & Hd & _). unfold ret. intros E. inversion E; subst.
      split; [exact Hd|]. now exists (clock w').
    + subst s2.
      destruct (fallback_cases sym s w2)
        as [(_ & data & _ & ->) | (_ & ->)]; intros E; [|discriminate E].
      injection E as <- <- <-. cbn [cache cache_duration].
      split; [reflexivity|]. rewrite lookup_insert_eq. eauto.
Qed.

(** C5. Cache round trip: once [get_stock_data(symbol, period)] has
    returned a snapshot, the cache holds it under [symbol]; a second
    call made while that entry is younger than the cache lifetime (5
    minutes for a tool built with the defaults) returns the same
    snapshot, leaves the object and the world unchanged, and so makes no
    network request. *)
Theorem get_stock_data_round_trip sym period s w d s1 w1 :
  get_stock_data env sym period s w = (Some d, s1, w1) ->
  cache_duration s1 = cache_duration s /\
  cache_duration (new_tool (F := F) 5 false) = seconds 300 /\
  exists ts,
    cache s1 !! sym = Some (ts, d) /\
    forall w2,
      (clock w2 - ts < cache_duration s1)%Z ->
      get_stock_data env sym period s1 w2 = (Some d, s1, w2) /\
      requests (skipn (length (trace w2))
                      (trace (snd (get_stock_data env sym period s1 w2))))
      = [].
Proof.
  intros Hcall.
  destruct (get_stock_data_caches_result _ _ _ _ _ _ _ Hcall) as [Hd [ts Hts]].
  split; [exact Hd|]. split; [reflexivity|].
  exists ts. split; [exact Hts|].
  intros w2 Hfresh.
  rewrite (get_stock_data_hit sym period s1 w2 ts d Hts Hfresh).
  split; [reflexivity|]. cbn [snd]. now rewrite skipn_all.
Qed.

(** C10. A cache hit ignores the period: with a fresh entry for the
    symbol in the cache, [get_stock_data(symbol, period)] returns that
    entry's snapshot for every period, without any request; so a call
    for one period that follows, within the cache lifetime, a call for
    another period returns the snapshot of the first call and fetches
    nothing for the range newly asked for. *)
Theorem get_stock_data_hit_ignores_period sym s w ts d :
  cache s !! sym = Some (ts, d) ->
  (clock w - ts < cache_duration s)%Z ->
  (forall period,
     get_stock_data env sym period s w = (Some d, s, w)) /\
  (forall period1 period2,
     get_stock_data env sym period1 s w
     = get_stock_data env sym period2 s w) /\
  (forall period,
     requests (skipn (length (trace w))
                     (trace (snd (get_stock_data env sym period s w))))
     = []) /\
  (forall period1 period2 s0 w0 w1 d1,
     get_stock_data env sym period1 s0 w0 = (Some d1, s, w1) ->
     get_stock_data env sym period2 s w = (Some d1, s, w)).
Proof.
  intros Hc Hfresh.
  assert (Hall : forall period,
             get_stock_data env sym period s w = (Some d, s, w))
    by (intros period; now apply get_stock_data_hit with (ts := ts)).
  split; [exact Hall|]. split; [|split].
  - intros p1 p2. now rewrite !Hall.
  - intros period. rewrite Hall. cbn [snd]. now rewrite skipn_all.
  - intros p1 p2 s0 w0 w1 d1 Hfirst.
    destruct (get_stock_data_caches_result _ _ _ _ _ _ _ Hfirst)
      as [_ [ts1 Hts1]].
    rewrite Hc in Hts1. injection Hts1 as _ <-. apply Hall.
Qed.

End CacheFacts.

(* ===================================================================== *)
(** * The retry loop and the fallback *)
(* ===================================================================== *)

Section RetryLoop.
Import StockData.
Context {F : Type} `{Num F}.
Variable env : environment (F := F).

(** The cache has nothing fresh to offer for the symbol. *)
Definition missed (s : tool (F := F)) (w : world) (sym : string) : Prop :=
  match cache s !! sym with
  | Some (ts, _) => (cache_duration s <= clock w - ts)%Z
  | None => True
  end.

(** The wait of the rate limiter at the start of a fetch. *)
Definition rate_wait (s : tool (F := F)) (w : world) : list event :=
  let elapsed := (clock w - last_request_time s)%Z in
  if (elapsed <? min_request_interval s)%Z
  then [Sleep (min_request_interval s - elapsed)]
  else [].

(** Events by kind: a request is [None], a sleep is its duration. *)
Definition shape (evs : list event) : list (option Z) :=
  map (fun e => match e with
                | Request _ _ _ => None
                | Sleep d => Some d
                end) evs.

(** [k] rate-limited attempts: each request is followed by a wait of
    2, 4, 8, ... seconds. *)
Definition backoff_shape (k : nat) : list (option Z) :=
  flat_map (fun i => [None; Some (seconds (2 * 2 ^ Z.of_nat i))]) (seq 0 k).

(** The rate-limit reply, HTTP 429. *)
Definition rate_limited (r : response (F := F)) : bool :=
  match r with
  | HttpStatus c => (c =? 429)%Z
  | _ => false
  end.

(** A reply without a usable row: the request went through, and
    [_fetch_from_yahoo_api] returns [None]. *)
Definition unusable (r : response (F := F)) : Prop :=
  match r with
  | NoData => True
  | Rows hist => hist = []
  | _ => False
  end.

(** An upstream error other than the rate limit. *)
Definition fatal (r : response (F := F)) : Prop :=
  match r with
  | Failure => True
  | HttpStatus c => c <> 429%Z
  | _ => False
  end.

(** A reply from which a snapshot is built. *)
Definition gives_data (r : response (F := F)) : Prop :=
  match r with
  | Rows hist => hist <> []
  | _ => False
  end.

(** The events of [made] attempts, the first of which is answered by
    reply [n]: attempt [k] is one request, followed by a wait of
    2 * 2^k seconds when its reply is the rate limit, and by nothing
    otherwise. *)
Definition attempt_shape (n made : nat) : list (option Z) :=
  flat_map (fun k =>
              None :: (if rate_limited (reply_of env (k + n))
                       then [Some (seconds (2 * 2 ^ Z.of_nat k))]
                       else []))
           (seq 0 made).

(** The snapshot of a reply whose rows, newest first, are
    [latest :: before]. *)
Definition snapshot_of_rows (sym : string) (hist : list (row (F := F)))
    (latest : row (F := F)) (before : list (row (F := F)))
  : snapshot (F := F) :=
  let prev_close := match before with
                    | prev :: _ => r_close prev
                    | [] => r_close latest
                    end in
  {| symbol := str_upper sym;
     price := r_close latest;
     open := r_open latest;
     high := r_high latest;
     low := r_low latest;
     volume := r_volume latest;
     date := date_of env (r_time latest);
     change_percent :=
       ((r_close latest - prev_close) / prev_close * of_Z 100)%num;
     history := map r_close hist |}.

(** The mock snapshot made of one batch of random draws: the base price
    of the symbol (100 for a symbol without one) moved by the noise,
    open, high and low at fixed ratios of that price, and a history of
    252 closes around the base price. *)
Definition mock_snapshot (sym : string) (r : mock_draw (F := F))
    (today : string) : snapshot (F := F) :=
  let base := of_Z (get_default base_prices (str_upper sym) 100%Z) in
  let price := (base * (of_Z 1 + noise r))%num in
  {| symbol := str_upper sym;
     price := price;
     open := (price * ratio 98 100)%num;
     high := (price * ratio 102 100)%num;
     low := (price * ratio 95 100)%num;
     volume := mock_volume r;
     date := today;
     change_percent := mock_change r;
     history := map (fun k => (base * (of_Z 1 + history_noise r k))%num)
                    (seq 0 252) |}.

(** The object with one more cache entry, and with a new time of the
    last request. *)
Definition with_entry (s : tool (F := F)) (sym : string) (ts : Z)
    (d : snapshot (F := F)) : tool (F := F) :=
  {| cache := <[sym := (ts, d)]> (cache s);
     cache_duration := cache_duration s;
     use_mock := use_mock s;
     last_request_time := last_request_time s;
     min_request_interval := min_request_interval s |}.

Definition with_last_request (s : tool (F := F)) (t : Z) : tool (F := F) :=
  {| cache := cache s;
     cache_duration := cache_duration s;
     use_mock := use_mock s;
     last_request_time := t;
     min_request_interval := min_request_interval s |}.

(** The call returns the snapshot of the reply [r], caches it under the
    symbol with the time of caching and records that time as the time
    of the last request. *)
Definition fetched (sym : string) (r : response (F := F))
    (s : tool (F := F)) (res : option (snapshot (F := F)))
    (s' : tool (F := F)) (w' : world) : Prop :=
  exists hist latest before,
    r = Rows hist /\ rev hist = latest :: before /\
    res = Some (snapshot_of_rows sym hist latest before) /\
    s' = with_last_request
           (with_entry s sym (clock w')
                       (snapshot_of_rows sym hist latest before))
           (clock w').

(** What the fallback policy returns and caches.  With mock mode on:
    the mock snapshot of the next batch of draws, dated today, returned
    and cached under the symbol with the time of caching, the time of
    the last request staying as it was.  With mock mode off: the absent
    result, the object unchanged, no draw consumed. *)
Definition fell_back (sym : string) (s : tool (F := F)) (w : world)
    (res : option (snapshot (F := F))) (s' : tool (F := F)) (w' : world)
  : Prop :=
  if use_mock s
  then let data := mock_snapshot sym (draw_of env (draws_made w))
                                 (date_of env (clock w' / 1000000)) in
       res = Some data /\
       s' = with_entry s sym (clock w') data /\
       draws_made w' = S (draws_made w)
  else res = None /\ s' = s /\ draws_made w' = draws_made w.

Lemma cached_miss sym s w :
  missed s w sym -> cached sym s w = (None, s, w).
Proof.
  unfold missed, cached, bind, self, now, ret.
  destruct (cache s !! sym) as [[ts c]|]; [|reflexivity].
  intros Hstale. apply Z.ltb_ge in Hstale. now rewrite Hstale.
Qed.

Lemma rev_nil_inv {A} (l : list A) : rev l = [] -> l = [].
Proof.
  intros E. apply (f_equal (@rev A)) in E. now rewrite rev_involutive in E.
Qed.

Lemma rev_cons_not_nil {A} (l : list A) x xs : rev l = x :: xs -> l <> [].
Proof. intros E ->. discriminate E. Qed.

#[local] Ltac next_reply :=
  match goal with
  | |- context [match reply_of env ?n with _ => _ end] =>
      let E := fresh "Er" in
      destruct (reply_of env n) as [?c| | |?hist] eqn:E
  | |- context [(?c =? 429)%Z] =>
      let E := fresh "Ec" in
      destruct (Z.eqb_spec c 429) as [E|E]; [subst c|]
  | |- context [match rev ?h with _ => _ end] =>
      let E := fresh "Eh" in
      destruct (rev h) eqn:E; [apply rev_nil_inv in E; subst h|]
  end;
  cbn [fst snd clock requests_made draws_made trace cache].

#[local] Ltac unfold_loop :=
  cbn [attempts];
  unfold _fetch_from_yahoo_api, http_get, set_cache, set_last_request_time,
    sleep, bind, ret, self, now;
  cbn [fst snd clock requests_made draws_made trace cache].

#[local] Ltac use_prefix Hpre :=
  try (pose proof (Hpre 0%nat ltac:(lia)) as ?P0; cbn [Nat.add] in *);
  try (pose proof (Hpre 1%nat ltac:(lia)) as ?P1; cbn [Nat.add] in *);
  try (pose proof (Hpre 2%nat ltac:(lia)) as ?P2; cbn [Nat.add] in *).

(** The replies seen so far, put to use. *)
#[local] Ltac replies :=
  repeat match goal with
         | E : reply_of env _ = _ |- _ => rewrite E in *
         end;
  cbn [rate_limited unusable fatal gives_data] in *.

(** The retry loop, reply by reply. *)
Lemma attempts_policy sym period s w r s' w' :
  attempts env sym period [0; 1; 2]%Z s w = (r, s', w') ->
  let n := requests_made w in
  exists new,
    let made := length (requests new) in
    trace w' = trace w ++ new /\
    (1 <= made <= 3)%nat /\
    requests_made w' = (made + n)%nat /\
    draws_made w' = draws_made w /\
    shape new = attempt_shape n made /\
    (forall k, (k + 1 < made)%nat ->
       rate_limited (reply_of env (k + n)) = true \/
       unusable (reply_of env (k + n))) /\
    ((made < 3)%nat ->
       fatal (reply_of env (made - 1 + n)) \/
       gives_data (reply_of env (made - 1 + n))) /\
    ((forall i, (i < 3)%nat -> reply_of env (i + n) = HttpStatus 429) ->
     shape new = backoff_shape 3) /\
    (forall k, (k < 3)%nat ->
       (forall i, (i < k)%nat -> reply_of env (i + n) = HttpStatus 429) ->
       fatal (reply_of env (k + n)) ->
       shape new = backoff_shape k ++ [None]) /\
    match r with
    | Some _ => fetched sym (reply_of env (made - 1 + n)) s r s' w'
    | None => ~ gives_data (reply_of env (made - 1 + n)) /\ s' = s
    end.
Proof.
  intros Hrun n. subst n. revert Hrun. unfold_loop.
  repeat next_reply;
    intros Hrun; inversion Hrun; subst; clear Hrun;
    rewrite <- ?app_assoc;
    (eexists; cbv zeta; split; [reflexivity|]);
    cbn [requests List.filter app length shape map Nat.add Nat.sub];
    (split; [lia|]); (split; [reflexivity|]); (split; [reflexivity|]).
  all: (split; [unfold attempt_shape; cbn [flat_map seq app Nat.add];
                replies;
                repeat match goal with
                       | E : ?c <> 429%Z |- _ =>
                           rewrite (proj2 (Z.eqb_neq c 429) E)
                       end; reflexivity|]).
  all: (split; [intros k Hk; destruct k as [|[|k]]; try lia;
                cbn [Nat.add]; replies;
                solve [left; reflexivity | right; exact I
                      | right; reflexivity]|]).
  all: (split; [intros Hlt; try lia; replies;
                solve [left; exact I | left; assumption
                      | right; eapply rev_cons_not_nil; eassumption]|]).
  all: (split; [intros Hpre; use_prefix Hpre; try congruence;
                reflexivity|]).
  all: (split; [intros k Hk Hpre Hfatal;
                destruct k as [|[|[|k]]]; [| | |lia];
                use_prefix Hpre; cbn [Nat.add] in Hfatal;
                try congruence;
                (rewrite ?Er, ?Er0, ?Er1 in Hfatal; cbn [fatal] in Hfatal;
                 try contradiction; try congruence);
                reflexivity|]).
  all: try (split; [|reflexivity]; replies; intros Hd; try exact Hd;
            now apply Hd).
  all: do 3 eexists; split; [eassumption|]; split; [eassumption|];
    split; reflexivity.
Qed.

End RetryLoop.

Section RetryFacts.
Import StockData.
Context {F : Type} `{Num F}.
Variable env : environment (F := F).

(** Building the mock data: one batch of draws, today's date. *)
Lemma mock_data_exact sym (s : tool (F := F)) w :
  _get_mock_data env sym s w
  = (mock_snapshot sym (draw_of env (draws_made w))
                   (date_of env (clock w / 1000000)),
     s,
     {| clock := clock w;
        requests_made := requests_made w;
        draws_made := S (draws_made w);
        trace := trace w |}).
Proof. reflexivity. Qed.

Lemma fallback_result sym s w res s' w' :
  fallback env sym s w = (res, s', w') ->
  fell_back env sym s w res s' w' /\ trace w' = trace w /\
  requests_made w' = requests_made w.
Proof.
  unfold fallback, fell_back. unfold bind at 1, self.
  destruct (use_mock s) eqn:Em.
  - unfold bind at 1. rewrite mock_data_exact.
    unfold bind, now, set_cache, ret. cbn [clock].
    intros E. injection E as <- <- <-.
    cbn [clock draws_made trace requests_made].
    unfold with_entry. rewrite Em. repeat split.
  - unfold ret. intros E. injection E as <- <- <-. repeat split.
Qed.

(** C7. A call of [get_stock_data] makes at most three requests.  A
    call that finds nothing fresh in the cache makes one, two or three.
    Every attempt but the last was answered by the rate limit (HTTP 429)
    or by a payload without a usable row; when fewer than three
    attempts are made, the last one was answered by another error or
    by data.  Attempt k (from 0) is followed by a wait of 2 * 2^k
    seconds when its reply is the rate limit and by no wait otherwise:
    three rate-limit replies give waits of 2, 4 and 8 seconds, and
    another error after [k] rate-limit replies is the last request of
    the call, with no further wait.  When the last reply carries data,
    the call returns its snapshot and caches it under the symbol.  In
    every other case the call ends with the fallback: with mock mode
    on, the mock snapshot (the base price of the symbol moved by the
    drawn noise, a history of 252 closes) returned and cached under the
    symbol with the time of caching; with mock mode off, the absent
    result and an unchanged object. *)
Theorem get_stock_data_retry_policy sym period s w res s' w' :
  get_stock_data env sym period s w = (res, s', w') ->
  let n := requests_made w in
  (requests_made w' <= n + 3)%nat /\
  (missed s w sym ->
   exists new,
     let made := length (requests new) in
     let last := reply_of env (made - 1 + n) in
     trace w' = trace w ++ rate_wait s w ++ new /\
     (1 <= made <= 3)%nat /\
     requests_made w' = (made + n)%nat /\
     (forall k, (k + 1 < made)%nat ->
        rate_limited (reply_of env (k + n)) = true \/
        unusable (reply_of env (k + n))) /\
     ((made < 3)%nat -> fatal last \/ gives_data last) /\
     shape new = attempt_shape env n made /\
     ((forall i, (i < 3)%nat -> reply_of env (i + n) = HttpStatus 429) ->
      shape new
      = [ None; Some (seconds 2); None; Some (seconds 4);
          None; Some (seconds 8) ]) /\
     (forall k, (k < 3)%nat ->
        (forall i, (i < k)%nat -> reply_of env (i + n) = HttpStatus 429) ->
        fatal (reply_of env (k + n)) ->
        shape new = backoff_shape k ++ [None]) /\
     (gives_data last -> fetched env sym last s res s' w') /\
     (~ gives_data last -> fell_back env sym s w res s' w')).
Proof.
  intros Hcall n.
  match goal with |- _ /\ ?policy => assert (Hpolicy : policy) end.
  { intros Hmiss.
    revert Hcall. unfold get_stock_data. unfold bind at 1.
    rewrite (cached_miss sym s w Hmiss).
    unfold bind at 1, self. unfold bind at 1, now. unfold bind at 1.
    set (w1 := snd ((if (clock w - last_request_time s
                         <? min_request_interval s)%Z
                     then sleep (min_request_interval s
                                 - (clock w - last_request_time s))
                     else ret tt) s w)).
    assert (Hw1 : (if (clock w - last_request_time s
                       <? min_request_interval s)%Z
                   then sleep (min_request_interval s
                               - (clock w - last_request_time s))
                   else ret tt) s w = (tt, s, w1)).
    { subst w1. destruct (_ <? _)%Z; reflexivity. }
    rewrite Hw1.
    assert (Ht : trace w1 = trace w ++ rate_wait s w).
    { subst w1. unfold rate_wait. destruct (_ <? _)%Z; cbn.
      - reflexivity.
      - now rewrite app_nil_r. }
    assert (Hn : requests_made w1 = n).
    { subst w1 n. destruct (_ <? _)%Z; reflexivity. }
    assert (Hdr : draws_made w1 = draws_made w).
    { subst w1. destruct (_ <? _)%Z; reflexivity. }
    clearbody w1. clear Hw1.
    unfold bind at 1.
    destruct (attempts env sym period [0; 1; 2]%Z s w1)
      as [[r s2] w2] eqn:Ea.
    destruct (attempts_policy env sym period s w1 r s2 w2 Ea)
      as (new & Htr & Hlen & Hreq & Hdraws & Hshape & Hretried & Hended
          & H429 & Hfatal & Hres).
    rewrite Hn in *.
    intros Hcall. exists new. cbv zeta.
    destruct r as [d|].
    - (* the loop returned data *)
      unfold ret in Hcall. injection Hcall as <- <- <-.
      split; [now rewrite Htr, Ht, app_assoc|].
      repeat (split; [assumption|]).
      split; [intros _; exact Hres|].
      intros Hno. exfalso. apply Hno.
      destruct Hres as (hist & latest & before & -> & Hrev & _).
      cbn [gives_data]. now apply rev_cons_not_nil in Hrev.
    - (* the loop gave up *)
      destruct Hres as [Hno ->].
      destruct (fallback_result sym s w2 res s' w' Hcall)
        as (Hfb & -> & ->).
      split; [now rewrite Htr, Ht, app_assoc|].
      repeat (split; [assumption|]).
      split; [intros Hd; now destruct (Hno Hd)|].
      intros _. revert Hfb. unfold fell_back.
      now rewrite Hdraws, Hdr. }
  split; [|exact Hpolicy].
  assert (Hbound : missed s w sym -> (requests_made w' <= n + 3)%nat).
  { intros Hmiss. destruct (Hpolicy Hmiss) as (new & _ & Hlen & Hreq & _).
    cbv zeta in Hlen, Hreq. lia. }
  destruct (cache s !! sym) as [[ts c]|] eqn:Ec.
  - destruct (Z.ltb_spec (clock w - ts) (cache_duration s)) as [Hfresh|Hst].
    + rewrite (get_stock_data_hit env sym period s w ts c Ec Hfresh)
        in Hcall.
      injection Hcall as <- <- <-. subst n. lia.
    + apply Hbound. unfold missed. now rewrite Ec.
  - apply Hbound. unfold missed. now rewrite Ec.
Qed.

End RetryFacts.

(* ===================================================================== *)
(** * A concrete run of the data layer *)
(* ===================================================================== *)

Section DataRuns.
Import StockData.

Definition row_1 : row (F := Q) :=
  {| r_time := 1769904000; r_open := 270%Q; r_high := 275%Q;
     r_low := 268%Q; r_close := 272%Q; r_volume := 50000000 |}.

Definition row_2 : row (F := Q) :=
  {| r_time := 1769990400; r_open := 272%Q; r_high := 280%Q;
     r_low := 271%Q; r_close := 278%Q; r_volume := 60000000 |}.

Definition draw_0 : mock_draw (F := Q) :=
  {| noise := (1 # 100)%Q; mock_volume := 12345678;
     mock_change := 1%Q; history_noise := fun _ => 0%Q |}.

(** A data source that answers every request with two rows, and one
    that answers every request with HTTP 429. *)
Definition env_up : environment (F := Q) :=
  {| reply_of := fun _ => Rows [row_1; row_2];
     latency_of := fun _ => 250000%Z;
     draw_of := fun _ => draw_0;
     date_of := fun _ => "2026-02-02"%string |}.

Definition env_limited : environment (F := Q) :=
  {| reply_of := fun _ => HttpStatus 429;
     latency_of := fun _ => 250000%Z;
     draw_of := fun _ => draw_0;
     date_of := fun _ => "2026-02-02"%string |}.

(** A data source whose first reply has no rows and whose later replies
    are HTTP 429. *)
Definition env_patchy : environment (F := Q) :=
  {| reply_of := fun k => match k with
                          | O => NoData
                          | S _ => HttpStatus 429
                          end;
     latency_of := fun _ => 250000%Z;
     draw_of := fun _ => draw_0;
     date_of := fun _ => "2026-02-02"%string |}.

Definition world_0 : world :=
  {| clock := 1770000000000000; requests_made := 0; draws_made := 0;
     trace := [] |}.

Definition snapshot_0 : snapshot (F := Q) :=
  {| symbol := "AAPL"; price := 278%Q; open := 272%Q; high := 280%Q;
     low := 271%Q; volume := 60000000; date := "2026-02-02";
     change_percent := (600 # 272)%Q; history := [272%Q; 278%Q] |}.

(** A tool whose cache holds a one-minute-old entry at [world_0]. *)
Definition tool_warm : tool (F := Q) :=
  {| cache := <["AAPL"%string := (1769999940000000%Z, snapshot_0)]> ∅;
     cache_duration := minutes 5;
     use_mock := false;
     last_request_time := 1769999940000000;
     min_request_interval := seconds 1 |}.

Lemma get_stock_data_round_trip_witness :
  exists d s1 w1,
    get_stock_data env_up "AAPL" "1y" (new_tool 5 false) world_0
    = (Some d, s1, w1) /\
    cache_duration s1 = cache_duration (new_tool (F := Q) 5 false) /\
    cache_duration (new_tool (F := Q) 5 false) = seconds 300 /\
    exists ts,
      cache s1 !! "AAPL"%string = Some (ts, d) /\
      forall w2,
        (clock w2 - ts < cache_duration s1)%Z ->
        get_stock_data env_up "AAPL" "1y" s1 w2 = (Some d, s1, w2) /\
        requests (skipn (length (trace w2))
                        (trace (snd (get_stock_data env_up "AAPL" "1y"
                                                    s1 w2))))
        = [].
Proof.
  destruct (get_stock_data env_up "AAPL" "1y" (new_tool 5 false) world_0)
    as [[[d|] s1] w1] eqn:E.
  - exists d, s1, w1. split; [reflexivity|].
    exact (get_stock_data_round_trip env_up _ _ _ _ _ _ _ E).
  - exfalso. vm_compute in E. discriminate E.
Defined.

Lemma get_stock_data_hit_ignores_period_witness :
  get_stock_data env_up "AAPL" "1d" tool_warm world_0
  = (Some snapshot_0, tool_warm, world_0) /\
  get_stock_data env_up "AAPL" "5y" tool_warm world_0
  = (Some snapshot_0, tool_warm, world_0).
Proof.
  destruct (get_stock_data_hit_ignores_period env_up "AAPL" tool_warm
              world_0 1769999940000000%Z snapshot_0)
    as (Hall & _).
  - reflexivity.
  - reflexivity.
  - split; apply Hall.
Defined.

Lemma get_stock_data_retry_policy_witness :
  (exists res s' w' new,
     get_stock_data env_limited "AAPL" "1y" (new_tool 5 true) world_0
     = (res, s', w') /\
     trace w'
     = trace world_0 ++ rate_wait (new_tool (F := Q) 5 true) world_0
       ++ new /\
     length (requests new) = 3%nat /\
     shape new
     = [ None; Some (seconds 2); None; Some (seconds 4);
         None; Some (seconds 8) ] /\
     res = Some (mock_snapshot "AAPL" draw_0 "2026-02-02") /\
     s' = with_entry (new_tool 5 true) "AAPL" (clock w')
                     (mock_snapshot "AAPL" draw_0 "2026-02-02")) /\
  (exists res s' w' new,
     get_stock_data env_patchy "AAPL" "1y" (new_tool 5 false) world_0
     = (res, s', w') /\
     length (requests new) = 3%nat /\
     shape new = [ None; None; Some (seconds 4); None; Some (seconds 8) ] /\
     res = None /\ s' = new_tool 5 false).
Proof.
  split.
  - destruct (get_stock_data env_limited "AAPL" "1y" (new_tool 5 true)
                             world_0)
      as [[res s'] w'] eqn:E.
    destruct (get_stock_data_retry_policy env_limited "AAPL" "1y"
                (new_tool 5 true) world_0 res s' w')
      as (_ & Hpolicy).
    + exact E.
    + destruct (Hpolicy I)
        as (new & Htr & Hlen & _ & _ & Hended & _ & H429 & _ & _ & Hfb).
      exists res, s', w', new. split; [reflexivity|]. split; [exact Htr|].
      assert (Hmade : length (requests new) = 3%nat).
      { destruct (Nat.lt_ge_cases (length (requests new)) 3) as [Hlt|Hge];
          [|lia].
        destruct (Hended Hlt) as [Hf|Hd]; [now destruct Hf | destruct Hd]. }
      split; [exact Hmade|].
      split; [exact (H429 (fun i _ => eq_refl))|].
      destruct (Hfb (fun Hd => Hd)) as (Hres & Hs & _).
      split; [exact Hres | exact Hs].
  - destruct (get_stock_data env_patchy "AAPL" "1y" (new_tool 5 false)
                             world_0)
      as [[res s'] w'] eqn:E.
    destruct (get_stock_data_retry_policy env_patchy "AAPL" "1y"
                (new_tool 5 false) world_0 res s' w')
      as (_ & Hpolicy).
    + exact E.
    + destruct (Hpolicy I)
        as (new & _ & Hlen & _ & _ & Hended & Hshape & _ & _ & _ & Hfb).
      exists res, s', w', new. split; [reflexivity|].
      assert (Hmade : length (requests new) = 3%nat).
      { destruct (length (requests new)) as [|[|[|[|m]]]]; try lia.
        - destruct (Hended ltac:(lia)) as [[]|[]].
        - destruct (Hended ltac:(lia)) as [Hf|[]]. now destruct Hf. }
      rewrite Hmade in Hshape, Hfb. split; [exact Hmade|].
      split; [exact Hshape|].
      destruct (Hfb (fun Hd => Hd)) as (Hres & Hs & _).
      split; [exact Hres | exact Hs].
Defined.

End DataRuns.

(* ===================================================================== *)
(** * The validate stage *)
(* ===================================================================== *)

Section ValidateStage.
Import Text Agent.
Context {F : Type} `{Num F}.
Variables (Payload Params : Type).
Variable json_dumps : Payload -> text.
Variable format_2f : F -> text.
Variables (StockDataPoint IndicatorAnalysis AnalysisResult : Type).

#[local] Abbreviation State :=
  (AgentState (F := F) Payload Params StockDataPoint IndicatorAnalysis
              AnalysisResult).

(** The supporting data the stage hands to the guardrails. *)
Definition data_points_of (state : State) : list text :=
  map (fun call => T (tool_name call) ++ T ": "
                   ++ json_dumps (output call))
      (tool_calls state).

(** C8. The validate stage leaves [final_response] as it was, whatever
    the verdict; it stores the verdict of the guardrails on that
    response (with all logged tool outputs as data) in
    [guardrail_checks], appends one system message that carries the
    score, and changes none of the twelve other fields. *)
Theorem validate_stage_is_advisory (now : Z) (state : State) :
  let state' :=
    Agent.validate Payload Params json_dumps format_2f StockDataPoint
                   IndicatorAnalysis AnalysisResult now state in
  let verdict :=
    Guardrails.validate (F := F) (final_response state)
                        (Some (data_points_of state)) in
  final_response state' = final_response state /\
  guardrail_checks state' = Some verdict /\
  messages state'
  = messages state
    ++ [ {| role := "system";
            content := T "Validation complete. Score: "
                       ++ format_2f (Guardrails.score verdict) ++ T "/1.0";
            timestamp := now |} ] /\
  tool_calls state' = tool_calls state /\
  current_query state' = current_query state /\
  comparison_symbols state' = comparison_symbols state /\
  latest_data state' = latest_data state /\
  latest_indicators state' = latest_indicators state /\
  portfolio_holdings state' = portfolio_holdings state /\
  stock_analysis state' = stock_analysis state /\
  comparison_results state' = comparison_results state /\
  portfolio_allocation_pref state' = portfolio_allocation_pref state /\
  created_at state' = created_at state /\
  session_id state' = session_id state.
Proof.
  repeat split.
Qed.

End ValidateStage.

(* ===================================================================== *)
(** * guardrails.py: suggest_improvements *)
(* ===================================================================== *)

Module Improvements.
Import Text Guardrails.

(** [validation_results["checks"].items()], in insertion order. *)
Definition items (c : checks check) : list (string * check) :=
  [ ("overconfidence", overconfidence c); ("disclaimer", disclaimer c);
    ("confidence_score", confidence_score c); ("reasoning", reasoning c);
    ("hallucination", hallucination c) ]%string.

(** The [if]/[elif] chain on the name of a failed check. *)
Definition suggestion_for (check_name : string) : list text :=
  if String.eqb check_name "overconfidence" then
    [ T "Use conditional language: 'if X, then consider Y' instead of absolute statements" ]
  else if String.eqb check_name "disclaimer" then
    [ T "Add disclaimer: '⚠️ This is not financial advice. Consult a licensed advisor before investing.'" ]
  else if String.eqb check_name "confidence_score" then
    [ T "Include explicit confidence score (0.0 to 1.0) based on data quality" ]
  else if String.eqb check_name "reasoning" then
    [ T "Expand reasoning: cite specific indicators (RSI, volatility, momentum) and their values" ]
  else if String.eqb check_name "hallucination" then
    [ T "Only claim what's in the data. Avoid predictive statements. Cite data sources." ]
  else [].

(** [GuardrailValidator.suggest_improvements]. *)
Definition suggest_improvements {F} (validation_results : verdict F)
  : list text :=
  flat_map (fun '(check_name, check_result) =>
              if negb (passed check_result)
              then suggestion_for check_name
              else [])
           (items (verdict_checks validation_results)).

End Improvements.

Section GuardrailMore.
Import Text Regex Guardrails Improvements.


(** A phrase stands in a text as a whole word: nothing, or a character
    that is not a word character, on either side. *)
Definition whole_word (p t : text) : Prop :=
  exists pre post,
    t = pre ++ p ++ post /\
    word_at (rev pre) 0 = false /\ word_at post 0 = false.

Lemma word_at_app pre rest :
  word_at (pre ++ rest) (length pre) = word_at rest 0.
Proof.
  unfold word_at. rewrite nth_error_app2 by lia.
  now rewrite Nat.sub_diag.
Qed.

Lemma word_before_app pre rest :
  word_before (pre ++ rest) (length pre) = word_at (rev pre) 0.
Proof.
  destruct pre as [|a pre] using rev_ind; [reflexivity|].
  rewrite length_app, Nat.add_1_r. cbn [word_before].
  rewrite rev_app_distr. cbn [rev app]. unfold word_at.
  rewrite <- app_assoc, nth_error_app2 by lia.
  now rewrite Nat.sub_diag.
Qed.

Lemma Forall2_chr_match_refl (p : text) :
  Forall2 (fun c x => chr_match true c x = true) p p.
Proof.
  induction p as [|c p IH]; constructor; [|exact IH].
  unfold chr_match. apply Ascii.eqb_refl.
Qed.

(** Completeness of the word pattern: a phrase that starts and ends
    with a word character and stands as a whole word is found. *)
Lemma search_word_complete (p t : text) :
  word_at p 0 = true -> word_at (rev p) 0 = true ->
  whole_word p t ->
  search true (overconfident_pattern p) t = true.
Proof.
  intros Hfirst Hlast (pre & post & -> & Hpre & Hpost).
  apply search_spec. exists (length pre). split.
  { rewrite !length_app. lia. }
  apply matches_at_In. exists (length p + 0 + length pre).
  unfold overconfident_pattern.
  apply In_ends_Seq with (j := length pre).
  { cbn [ends]. unfold boundary.
    rewrite word_before_app, word_at_app, Hpre.
    replace (word_at (p ++ post) 0) with true; [now left|].
    destruct p; [discriminate Hfirst | exact (eq_sym Hfirst)]. }
  apply In_ends_Seq with (j := length p + 0 + length pre).
  { apply (In_ends_lit true pre p post p 0).
    - cbn [skipn]. rewrite firstn_all. apply Forall2_chr_match_refl.
    - lia. }
  cbn [ends]. unfold boundary.
  replace (length p + 0 + length pre) with (length (pre ++ p))
    by (rewrite length_app; lia).
  rewrite app_assoc, word_before_app, word_at_app, Hpost.
  rewrite rev_app_distr.
  replace (word_at (rev p ++ rev pre) 0) with true; [now left|].
  destruct (rev p); [discriminate Hlast | exact (eq_sym Hlast)].
Qed.

End GuardrailMore.

Section GuardrailWords.
Import Text Regex Guardrails Improvements.

Lemma ends_lit_length ic t p i j :
  i <= length t ->
  In j (ends ic t (lit p) i) -> j = length p + i /\ j <= length t.
Proof.
  revert i. induction p as [|c p IH]; intros i Hi Hj.
  - simpl in Hj. destruct Hj as [<-|[]]. now split.
  - apply In_ends_Seq_inv in Hj. destruct Hj as [m [Hm Hj]].
    simpl in Hm. destruct (nth_error t i) as [x|] eqn:E; [|contradiction].
    destruct (chr_match ic c x); [|contradiction].
    destruct Hm as [<-|[]].
    assert (i < length t) by (apply nth_error_Some; congruence).
    destruct (IH (S i) ltac:(lia) Hj) as [-> Hle].
    split; [simpl; lia | exact Hle].
Qed.

Lemma lower_app_fixed (a b : text) :
  lower (a ++ b) = a ++ b -> lower a = a /\ lower b = b.
Proof.
  induction a as [|x a IH]; simpl; intros E; [now split|].
  injection E as Ex E. destruct (IH E) as [Ha Hb].
  split; [now rewrite Ex, Ha | exact Hb].
Qed.

(** Soundness of the word pattern on a lower-case text. *)
Lemma search_word_sound (p u : text) :
  lower u = u -> lower p = p ->
  word_at p 0 = true -> word_at (rev p) 0 = true ->
  search true (overconfident_pattern p) u = true ->
  whole_word p u.
Proof.
  intros Hu Hp Hfirst Hlast Hs.
  apply search_spec in Hs. destruct Hs as [i [Hi Hm]].
  apply matches_at_In in Hm. destruct Hm as [j Hj].
  unfold overconfident_pattern in Hj.
  apply In_ends_Seq_inv in Hj. destruct Hj as [i' [Hb1 Hj]].
  cbn [ends] in Hb1. destruct (boundary u i) eqn:B1; [|contradiction].
  destruct Hb1 as [<-|[]].
  apply In_ends_Seq_inv in Hj. destruct Hj as [m [Hl Hb2]].
  cbn [ends] in Hb2. destruct (boundary u m) eqn:B2; [|contradiction].
  destruct Hb2 as [<-|[]].
  destruct (ends_lit_length _ _ _ _ _ Hi Hl) as [Hm Hle].
  destruct (ends_lit_sound _ _ _ _ _ Hl) as [seg [HF Hseg]].
  assert (Eu : u = firstn i u ++ seg ++ skipn m u).
  { rewrite app_assoc, <- Hseg. symmetry. apply firstn_skipn. }
  assert (Es : seg = p).
  { rewrite Eu in Hu. apply lower_app_fixed in Hu. destruct Hu as [_ Hu].
    apply lower_app_fixed in Hu. destruct Hu as [Hu _].
    now rewrite <- Hu, (chr_match_lower _ _ HF). }
  subst seg.
  assert (Li : length (firstn i u) = i) by (rewrite length_firstn; lia).
  remember (firstn i u) as pre eqn:Epre.
  remember (skipn m u) as post eqn:Epost.
  assert (Lm : length (pre ++ p) = m) by (rewrite length_app, Li; lia).
  clear Epre Epost Hl HF Hseg Hu.
  exists pre, post. split; [exact Eu|]. subst u. split.
  - rewrite <- Li in B1. unfold boundary in B1.
    rewrite word_before_app, word_at_app in B1.
    replace (word_at (p ++ post) 0) with true in B1
      by (destruct p; [discriminate Hfirst | exact (eq_sym Hfirst)]).
    now destruct (word_at (rev pre) 0).
  - rewrite <- Lm in B2. unfold boundary in B2.
    rewrite app_assoc in B2.
    rewrite word_before_app, word_at_app, rev_app_distr in B2.
    replace (word_at (rev p ++ rev pre) 0) with true in B2
      by (destruct (rev p); [discriminate Hlast | exact (eq_sym Hlast)]).
    now destruct (word_at post 0).
Qed.

Lemma overconfident_phrases_shape :
  forall p, In p OVERCONFIDENT_PHRASES ->
            lower p = p /\ word_at p 0 = true /\ word_at (rev p) 0 = true.
Proof.
  intros p Hp. unfold OVERCONFIDENT_PHRASES in Hp. simpl in Hp.
  repeat (destruct Hp as [<-|Hp]; [repeat split|]). contradiction.
Qed.


(** Completeness for a bare phrase searched case-insensitively. *)
Lemma lower_eq_chr_match (p seg : text) :
  lower seg = lower p ->
  Forall2 (fun c x => chr_match true c x = true) p seg.
Proof.
  revert seg. induction p as [|c p IH]; intros [|x seg] E;
    try discriminate E; constructor.
  - injection E as Ex _. unfold chr_match. apply Ascii.eqb_eq. congruence.
  - injection E as _ E. now apply IH.
Qed.

Lemma search_lit_complete (p t : text) :
  lower p = p -> occurs p (lower t) -> search true (lit p) t = true.
Proof.
  intros Hp [pre [post E]]. unfold lower in E.
  apply map_eq_app in E. destruct E as (pre' & rest & -> & Hpre & E).
  apply map_eq_app in E. destruct E as (seg & post' & -> & Hseg & Hpost).
  apply search_spec. exists (0 + length pre'). split.
  { rewrite !length_app. lia. }
  apply matches_at_In. exists (length p + 0 + length pre').
  apply (In_ends_lit true pre' seg post' p 0).
  - change (skipn 0 seg) with seg.
    assert (length seg = length p)
      by (rewrite <- Hseg; symmetry; apply length_map).
    replace (length p) with (length seg) by assumption.
    rewrite firstn_all. apply lower_eq_chr_match.
    unfold lower. rewrite Hseg. symmetry. exact Hp.
  - rewrite <- Hseg, length_map. lia.
Qed.







End GuardrailWords.

(* ===================================================================== *)
(** * tools.py: calculate_moving_averages *)
(* ===================================================================== *)

Module MovingAverages.
Import Indicators.

Section WithNum.
Context {F : Type} `{Num F}.

(** [prices.tail(n)]: the last [n] values, all of them when there are
    fewer. *)
Definition tail (n : nat) (prices : list F) : list F :=
  skipn (length prices - n) prices.

(** [Series.mean]. *)
Definition mean (l : list F) : F :=
  (sum l / of_Z (Z.of_nat (length l)))%num.

(** [float(x) if x else None]: a mean that is absent or zero is
    reported as absent. *)
Definition truthy (x : option F) : option F :=
  match x with
  | Some m => if (m =? of_Z 0)%num then None else Some m
  | None => None
  end.

(** [IndicatorsTool.calculate_moving_averages]. *)
Definition calculate_moving_averages (prices : list F)
  : option F * option F :=
  let ma_50 := if 50 <=? length prices
               then Some (mean (tail 50 prices)) else None in
  let ma_200 := if 200 <=? length prices
                then Some (mean (tail 200 prices)) else None in
  (truthy ma_50, truthy ma_200).

End WithNum.

End MovingAverages.

Section IndicatorMore.
Import Indicators MovingAverages.
#[local] Open Scope Q_scope.

Lemma diffs_from_firstn {F} `{Num F} (p : F) (rest : list F) k :
  firstn k (diffs_from p rest) = diffs_from p (firstn k rest).
Proof.
  revert p rest. induction k as [|k IH]; intros p [|x rest];
    try reflexivity.
  cbn [firstn diffs_from]. now rewrite IH.
Qed.



Lemma Qsum_all_zero (l : list Q) :
  Forall (fun x => x == 0) l -> Qsum l == 0.
Proof.
  induction 1 as [|x l Hx _ IH]; simpl; [reflexivity|].
  rewrite Hx, IH. ring.
Qed.

Lemma gain_of_fall d : d <= 0 -> gain d == 0.
Proof.
  intros Hd. unfold gain. apply Qle_bool_iff in Hd. now rewrite Hd.
Qed.

Lemma loss_of_rise d : 0 <= d -> loss d == 0.
Proof.
  intros Hd. unfold loss. apply Qle_bool_iff in Hd. now rewrite Hd.
Qed.

Lemma Qdiv_0_l (q : Q) : 0 / q == 0.
Proof. unfold Qdiv. ring. Qed.





End IndicatorMore.

Section MomentumMore.
Import Indicators MovingAverages.
#[local] Open Scope Q_scope.


Lemma momentum_value (prices : list Q) (period : nat) :
  (1 <= period <= length prices)%nat ->
  calculate_momentum (F := Q) prices period
  = Ret (Some ((nth (length prices - 1) prices 0
                - nth (length prices - period) prices 0)
               / nth (length prices - period) prices 0 * 100)).
Proof.
  intros Hp. unfold calculate_momentum.
  destruct (Nat.ltb_spec (length prices) period) as [?|_]; [lia|].
  now rewrite !iloc_neg_nth by lia.
Qed.

Lemma percent_change_sign (current past : Q) :
  0 < past ->
  let m := (current - past) / past * 100 in
  (0 < m <-> past < current) /\
  (m == 0 <-> current == past) /\
  (m < 0 <-> current < past).
Proof.
  intros Hpast m.
  destruct (Q_dec current past) as [[Hlt|Hgt]|Heq].
  - assert (Hq : (current - past) / past < 0)
      by (apply Qlt_shift_div_r; [exact Hpast | lra]).
    subst m. repeat split; intros; lra.
  - assert (Hq : 0 < (current - past) / past)
      by (apply Qlt_shift_div_l; [exact Hpast | lra]).
    subst m. repeat split; intros; lra.
  - assert (Hq : (current - past) / past == 0)
      by (rewrite Heq; unfold Qdiv; ring).
    subst m. repeat split; intros; lra.
Qed.



Lemma Qsum_positive (l : list Q) :
  l <> [] -> Forall (fun x => 0 < x) l -> 0 < Qsum l.
Proof.
  intros Hne Hall. destruct Hall as [|x l Hx Hl]; [contradiction|].
  simpl.
  assert (0 <= Qsum l).
  { apply Qsum_nonneg. apply List.Forall_forall. intros y Hy.
    rewrite List.Forall_forall in Hl. apply Qlt_le_weak. now apply Hl. }
  lra.
Qed.

Lemma mean_positive (l : list Q) :
  l <> [] -> Forall (fun x => 0 < x) l -> 0 < mean (F := Q) l.
Proof.
  intros Hne Hall. unfold mean. cbn [fdiv of_Z Q_Num].
  apply Qlt_shift_div_l.
  - apply period_positive. destruct l; [contradiction | simpl; lia].
  - rewrite Qmult_0_l, sum_Qsum. now apply Qsum_positive.
Qed.

Lemma tail_positive n (l : list Q) :
  Forall (fun x => 0 < x) l -> Forall (fun x => 0 < x) (tail n l).
Proof.
  intros Hall. unfold tail. apply List.Forall_forall. intros x Hx.
  rewrite List.Forall_forall in Hall. apply Hall.
  rewrite <- (firstn_skipn (length l - n) l). apply in_or_app. now right.
Qed.

Lemma tail_length {A} n (l : list A) :
  (n <= length l)%nat -> length (tail n l) = n.
Proof. intros Hn. unfold tail. rewrite length_skipn. lia. Qed.

Lemma moving_average_positive n (prices : list Q) :
  (0 < n <= length prices)%nat -> Forall (fun x => 0 < x) prices ->
  truthy (Some (mean (tail n prices))) = Some (mean (tail n prices)) /\
  0 < mean (tail n prices).
Proof.
  intros Hn Hall.
  assert (Hpos : 0 < mean (tail n prices)).
  { apply mean_positive; [|now apply tail_positive].
    intros E. apply (f_equal (@length Q)) in E.
    rewrite tail_length in E by lia. simpl in E. lia. }
  split; [|exact Hpos]. unfold truthy. cbn [feqb of_Z Q_Num].
  destruct (Qeq_bool (mean (tail n prices)) (inject_Z 0)) eqn:E;
    [|reflexivity].
  apply Qeq_bool_eq in E. unfold inject_Z in E. lra.
Qed.



End MomentumMore.

Section SignalMore.
Import Indicators.
#[local] Open Scope Q_scope.

(** The last two stages of [get_signal_strength], named: the damping of
    the score and the thresholds of the label. *)
Definition damp {F} `{Num F} (volatility : option F) (score : F) : F :=
  match volatility with
  | Some v =>
      (if negb (v =? of_Z 0) && (of_Z 30 <? v)
       then score * ratio 4 5
       else score)%num
  | None => score
  end.

Definition final_label {F} `{Num F} (score : F) : string :=
  (if (of_Z 2 <=? score)%num then "strong_buy"
   else if (ratio 1 2 <=? score)%num then "buy"
   else if (score <=? of_Z (-2))%num then "strong_sell"
   else if (score <=? ratio (-1) 2)%num then "sell"
   else "neutral")%string.

(** The score before damping does not depend on the volatility. *)
Lemma signal_factor {F} `{Num F} (r m : F) :
  exists s2, forall v,
    get_signal_strength (Some r) (Some m) v = final_label (damp v s2).
Proof. eexists. intros v. reflexivity. Qed.

#[local] Ltac literals :=
  change (ratio (F := Q) 1 2) with (1 # 2) in *;
  change (ratio (F := Q) (-1) 2) with (-1 # 2) in *;
  change (ratio (F := Q) 4 5) with (4 # 5) in *;
  cbn [fadd fsub fmul feqb of_Z Q_Num] in *;
  unfold inject_Z in *.

(** The score before damping, with the two contributions of the
    specification. *)
Lemma signal_stages (r m : Q) :
  exists s1 s2 : Q,
    rsi_contribution r s1 /\ momentum_contribution m (s2 - s1) /\
    forall v, get_signal_strength (Some r) (Some m) v
              = final_label (damp v s2).
Proof.
  cbv beta zeta iota delta [get_signal_strength].
  match goal with
  | |- context [if (r <? of_Z 30)%num then ?a else ?b] =>
      set (s1 := if (r <? of_Z 30)%num then a else b)
  end.
  match goal with
  | |- context [if (of_Z 5 <? m)%num then ?a else ?b] =>
      set (s2 := if (of_Z 5 <? m)%num then a else b)
  end.
  exists s1, s2. split; [|split; [|intros v; reflexivity]].
  - subst s1. unfold rsi_contribution.
    destruct (Qltb_spec r (of_Z 30)), (Qltb_spec r (of_Z 40)),
      (Qltb_spec (of_Z 70) r), (Qltb_spec (of_Z 60) r);
      literals; repeat split; intros; lra.
  - subst s2. clearbody s1. unfold momentum_contribution.
    destruct (Qltb_spec (of_Z 5) m), (Qltb_spec (of_Z 0) m),
      (Qltb_spec m (of_Z (-5))), (Qltb_spec m (of_Z 0));
      literals; repeat split; intros; lra.
Qed.

(** The strength of a label, from -2 (strong sell) to 2 (strong buy). *)
Definition rank (label : string) : Z :=
  if String.eqb label "strong_buy" then 2
  else if String.eqb label "buy" then 1
  else if String.eqb label "sell" then -1
  else if String.eqb label "strong_sell" then -2
  else 0.

Lemma damping_weakens (s : Q) :
  let calm := rank (final_label s) in
  let agitated := rank (final_label (s * (4 # 5))) in
  ((0 <= calm -> 0 <= agitated <= calm) /\
   (calm <= 0 -> calm <= agitated <= 0) /\
   calm - 1 <= agitated <= calm + 1)%Z.
Proof.
  unfold final_label.
  destruct (Qleb_spec (of_Z 2) s), (Qleb_spec (ratio 1 2) s),
    (Qleb_spec s (of_Z (-2))), (Qleb_spec s (ratio (-1) 2));
    destruct (Qleb_spec (of_Z 2) (s * (4 # 5))),
      (Qleb_spec (ratio 1 2) (s * (4 # 5))),
      (Qleb_spec (s * (4 # 5)) (of_Z (-2))),
      (Qleb_spec (s * (4 # 5)) (ratio (-1) 2));
    literals; try (exfalso; lra); vm_compute; repeat split;
    intros; congruence.
Qed.






End SignalMore.

(* ===================================================================== *)
(** * tools.py: suggest_rebalance *)
(* ===================================================================== *)

Module Rebalance.
Import Text.

Section WithNum.
Context {F : Type} `{Num F}.

(** [f"{x:.1f}"] is left to the caller. *)
Variable format_1f : F -> text.

(** [abs(x)] *)
Definition fabs (x : F) : F := (if x <? of_Z 0 then - x else x)%num.

(** [d.get(symbol, 0)] *)
Definition get_or_zero (d : gmap string F) (symbol : string) : F :=
  match d !! symbol with
  | Some x => x
  | None => of_Z 0
  end.

(** The body of the loop for one symbol. *)
Definition advice (current_allocation target_allocation : gmap string F)
    (threshold : F) (symbol : string) : list text :=
  let current := get_or_zero current_allocation symbol in
  let target := get_or_zero target_allocation symbol in
  let drift := fabs (current - target)%num in
  if (threshold <? drift)%num then
    if (target <? current)%num then
      [ T "Reduce " ++ T symbol ++ T " by " ++ format_1f drift
        ++ T "% (drift from target)" ]
    else
      [ T "Increase " ++ T symbol ++ T " by " ++ format_1f drift
        ++ T "% (drift from target)" ]
  else [].

(** [PortfolioTool.suggest_rebalance]; [threshold] defaults to 5.0.
    The loop runs over [set(current) | set(target)]: Python leaves the
    order of a set unspecified, the model takes the order of
    [elements]. *)
Definition suggest_rebalance
    (current_allocation target_allocation : gmap string F)
    (threshold : F) : list text :=
  flat_map (advice current_allocation target_allocation threshold)
           (elements (dom current_allocation ∪ dom target_allocation)).

End WithNum.

End Rebalance.

Section PortfolioMore.
Import Portfolio Rebalance Indicators.
#[local] Open Scope Q_scope.

(** The holdings that have a price, each with the value of its
    position. *)
Definition positions (holdings : dict Q) (prices : gmap string Q)
  : list (string * Q) :=
  flat_map (fun '(symbol, shares) =>
              match prices !! symbol with
              | Some price => [(symbol, shares * price)]
              | None => []
              end) holdings.

Lemma portfolio_value_from (holdings : dict Q) (prices : gmap string Q)
    (acc : Q) :
  fold_left
    (fun total '(symbol, shares) =>
       match prices !! symbol with
       | Some price => (total + shares * price)%num
       | None => total
       end) holdings acc
  == acc + Qsum (map snd (positions holdings prices)).
Proof.
  revert acc. induction holdings as [|[symbol shares] rest IH]; intros acc.
  - simpl. ring.
  - cbn [fold_left positions flat_map]. fold (positions rest prices).
    destruct (prices !! symbol) as [price|]; rewrite IH;
      cbn [app map snd Qsum fold_right fadd fmul Q_Num].
    + fold (Qsum (map snd (positions rest prices))). ring.
    + reflexivity.
Qed.

Lemma portfolio_value_positions (holdings : dict Q)
    (prices : gmap string Q) :
  calculate_portfolio_value holdings prices
  == Qsum (map snd (positions holdings prices)).
Proof.
  unfold calculate_portfolio_value. rewrite portfolio_value_from.
  cbn [of_Z Q_Num]. unfold inject_Z. ring.
Qed.

Lemma dict_set_fresh {V} (d : dict V) k (v : V) :
  ~ In k (map fst d) -> dict_set d k v = d ++ [(k, v)].
Proof.
  induction d as [|[k' v'] d IH]; intros Hk; [reflexivity|].
  cbn [dict_set]. destruct (String.eqb_spec k' k) as [->|_].
  - exfalso. apply Hk. now left.
  - cbn [app]. f_equal. apply IH. intros Hin. apply Hk. now right.
Qed.

Lemma positions_keys holdings prices k :
  In k (map fst (positions holdings prices)) -> In k (map fst holdings).
Proof.
  induction holdings as [|[symbol shares] rest IH]; [intros []|].
  cbn [positions flat_map]. fold (positions rest prices).
  rewrite map_app, in_app_iff. intros [Hin|Hin].
  - left. destruct (prices !! symbol); [|contradiction].
    destruct Hin as [<-|[]]. reflexivity.
  - right. now apply IH.
Qed.

(** With distinct symbols, the loop of [calculate_allocation] appends
    one entry per priced position. *)
Lemma allocation_from (holdings : dict Q) (prices : gmap string Q)
    (total : Q) (acc : dict Q) :
  List.NoDup (map fst acc ++ map fst holdings) ->
  fold_left
    (fun allocation '(symbol, shares) =>
       match prices !! symbol with
       | Some price =>
           dict_set allocation symbol
                    (shares * price / total * of_Z 100)%num
       | None => allocation
       end) holdings acc
  = acc ++ map (fun '(symbol, value) => (symbol, value / total * 100))
               (positions holdings prices).
Proof.
  revert acc. induction holdings as [|[symbol shares] rest IH]; intros acc Hnd.
  - simpl. now rewrite app_nil_r.
  - cbn [fold_left positions flat_map]. fold (positions rest prices).
    cbn [map fst] in Hnd.
    assert (Hfresh : ~ In symbol (map fst acc)).
    { intros Hin. apply NoDup_remove_2 in Hnd. apply Hnd.
      apply in_or_app. now left. }
    destruct (prices !! symbol) as [price|].
    + rewrite dict_set_fresh by exact Hfresh.
      rewrite IH.
      * rewrite <- app_assoc. reflexivity.
      * rewrite map_app, <- app_assoc. cbn [map fst app].
        exact Hnd.
    + cbn [app]. apply IH.
      apply NoDup_remove_1 in Hnd. exact Hnd.
Qed.

Lemma allocation_positions (holdings : dict Q) (prices : gmap string Q) :
  List.NoDup (map fst holdings) ->
  ~ calculate_portfolio_value holdings prices == 0 ->
  calculate_allocation holdings prices
  = map (fun '(symbol, value) =>
           (symbol,
            value / calculate_portfolio_value holdings prices * 100))
        (positions holdings prices).
Proof.
  intros Hnd Hne. unfold calculate_allocation.
  destruct (calculate_portfolio_value holdings prices =? of_Z 0)%num eqn:E.
  - exfalso. apply Hne. cbn [feqb of_Z Q_Num] in E.
    now apply Qeq_bool_eq in E.
  - now rewrite (allocation_from holdings prices _ []).
Qed.

Lemma Qsum_scaled (l : list (string * Q)) (c : Q) :
  Qsum (map snd (map (fun '(symbol, value) => (symbol, value / c * 100)) l))
  == Qsum (map snd l) / c * 100.
Proof.
  induction l as [|[k v] l IH]; simpl.
  - unfold Qdiv. ring.
  - rewrite IH. unfold Qdiv. ring.
Qed.




Lemma fabs_Qabs (x : Q) : fabs (F := Q) x == Qabs x.
Proof.
  unfold fabs. destruct (Qltb_spec x (of_Z 0)) as [Hx|Hx];
    cbn [of_Z fopp Q_Num] in *; unfold inject_Z in Hx.
  - symmetry. apply Qabs_neg. lra.
  - symmetry. apply Qabs_pos. exact Hx.
Qed.


End PortfolioMore.

(* ===================================================================== *)
(** * tools.py: get_multiple_stocks *)
(* ===================================================================== *)

Module Batch.
Import StockData Portfolio.

Section WithNum.
Context {F : Type} `{Num F}.
Variable env : environment (F := F).

#[local] Notation "x <- m ;; k" := (bind m (fun x => k))
  (at level 100, m at next level, right associativity).

(** The loop of [get_multiple_stocks], with the dictionary built so
    far. *)
Fixpoint collect (symbols : list string) (results : dict (snapshot (F := F)))
  : M (dict (snapshot (F := F))) :=
  match symbols with
  | [] => ret results
  | symbol :: rest =>
      data <- get_stock_data env symbol "1y" ;;
      match data with
      | Some d => collect rest (dict_set results symbol d)
      | None => collect rest results
      end
  end.

(** [StockDataTool.get_multiple_stocks]. *)
Definition get_multiple_stocks (symbols : list string)
  : M (dict (snapshot (F := F))) :=
  collect symbols [].

End WithNum.

End Batch.

Section StockMore.
Import StockData Batch Portfolio.
Context {F : Type} `{Num F}.
Variable env : environment (F := F).

(** The lookback of a period token, in seconds; a year for a token that
    is not in the table. *)
Definition lookback (period : string) : Z :=
  get_default period_map period (86400 * 365)%Z.

(** Two objects that differ at most in the cache entry of [sym] and in
    the time of the last request. *)
Definition same_but (sym : string) (s s' : tool (F := F)) : Prop :=
  (forall other, other <> sym -> cache s' !! other = cache s !! other) /\
  cache_duration s' = cache_duration s /\
  use_mock s' = use_mock s /\
  min_request_interval s' = min_request_interval s.

Lemma same_but_refl sym s : same_but sym s s.
Proof. repeat split. Qed.

Lemma fetch_step sym period (s : tool (F := F)) w :
  exists r,
    _fetch_from_yahoo_api env sym period s w
    = (r, s,
       {| clock := clock w + latency_of env (requests_made w);
          requests_made := S (requests_made w);
          draws_made := draws_made w;
          trace := trace w
                   ++ [Request sym (clock w / 1000000 - lookback period)
                               (clock w / 1000000)] |}) /\
    match reply_of env (requests_made w) with
    | HttpStatus c => r = Raise (HTTPError c)
    | Failure => r = Raise OtherError
    | NoData => r = Ret None
    | Rows hist =>
        match rev hist with
        | [] => r = Ret None
        | latest :: _ =>
            exists d, r = Ret (Some d) /\
                      symbol d = str_upper sym /\
                      price d = r_close latest /\
                      history d = map r_close hist
        end
    end.
Proof.
  unfold _fetch_from_yahoo_api, http_get, bind, ret, now, lookback.
  cbn [clock requests_made].
  destruct (reply_of env (requests_made w)) as [c| | |hist];
    try (eexists; split; reflexivity).
  destruct (rev hist) as [|latest before];
    [eexists; split; reflexivity|].
  eexists. split; [reflexivity|]. eexists. repeat split.
Qed.

(** What one run of the retry loop leaves behind. *)
Lemma attempts_effects sym period todo (s : tool (F := F)) w r s' w' :
  attempts env sym period todo s w = (r, s', w') ->
  exists new,
    trace w' = trace w ++ new /\
    (forall e, In e new ->
       match e with
       | Request sym' p1 p2 => sym' = sym /\ (p2 - p1 = lookback period)%Z
       | Sleep _ => True
       end) /\
    draws_made w' = draws_made w /\
    match r with
    | Some d =>
        s' = {| cache := <[sym := (clock w', d)]> (cache s);
                cache_duration := cache_duration s;
                use_mock := use_mock s;
                last_request_time := clock w';
                min_request_interval := min_request_interval s |}
    | None => s' = s
    end.
Proof.
  revert s w. induction todo as [|attempt rest IH]; intros s w Hrun.
  - cbn [attempts] in Hrun. unfold ret in Hrun. injection Hrun as <- <- <-.
    exists []. rewrite app_nil_r. repeat split. intros e [].
  - cbn [attempts] in Hrun. unfold bind at 1 in Hrun.
    destruct (fetch_step sym period s w) as (r0 & Ef & Hr0).
    rewrite Ef in Hrun. clear Ef Hr0.
    set (w1 := {| clock := clock w + latency_of env (requests_made w);
                  requests_made := S (requests_made w);
                  draws_made := draws_made w;
                  trace := trace w
                           ++ [Request sym
                                       (clock w / 1000000 - lookback period)
                                       (clock w / 1000000)] |}) in *.
    assert (Hreq : forall e,
               In e [Request sym (clock w / 1000000 - lookback period)
                             (clock w / 1000000)] ->
               match e with
               | Request sym' p1 p2 =>
                   sym' = sym /\ (p2 - p1 = lookback period)%Z
               | Sleep _ => True
               end).
    { intros e [<-|[]]. split; [reflexivity | lia]. }
    assert (Hcont : forall wk new0,
               trace wk = trace w ++ new0 ->
               (forall e, In e new0 ->
                  match e with
                  | Request sym' p1 p2 =>
                      sym' = sym /\ (p2 - p1 = lookback period)%Z
                  | Sleep _ => True
                  end) ->
               draws_made wk = draws_made w ->
               attempts env sym period rest s wk = (r, s', w') ->
               exists new,
                 trace w' = trace w ++ new /\
                 (forall e, In e new ->
                    match e with
                    | Request sym' p1 p2 =>
                        sym' = sym /\ (p2 - p1 = lookback period)%Z
                    | Sleep _ => True
                    end) /\
                 draws_made w' = draws_made w /\
                 match r with
                 | Some d =>
                     s' = {| cache := <[sym := (clock w', d)]> (cache s);
                             cache_duration := cache_duration s;
                             use_mock := use_mock s;
                             last_request_time := clock w';
                             min_request_interval := min_request_interval s |}
                 | None => s' = s
                 end).
    { intros wk new0 Htr Hev Hdr Hk.
      destruct (IH s wk Hk) as (new & Htr' & Hev' & Hdr' & Hs').
      exists (new0 ++ new). rewrite Htr', Htr, app_assoc.
      split; [reflexivity|]. split; [|split; [congruence | exact Hs']].
      intros e He. apply in_app_or in He.
      destruct He as [He|He]; [now apply Hev | now apply Hev']. }
    destruct r0 as [[d|]|e].
    + unfold bind, now, set_cache, set_last_request_time, ret in Hrun.
      cbn [clock cache cache_duration use_mock last_request_time
           min_request_interval] in Hrun.
      injection Hrun as <- <- <-.
      eexists. split; [reflexivity|]. split; [exact Hreq|].
      split; reflexivity.
    + apply (Hcont w1 _ eq_refl Hreq eq_refl Hrun).
    + destruct e as [|c|].
      * unfold ret in Hrun. injection Hrun as <- <- <-.
        eexists. split; [reflexivity|]. split; [exact Hreq|].
        split; reflexivity.
      * destruct (c =? 429)%Z.
        -- unfold bind at 1, sleep in Hrun.
           refine (Hcont _ _ _ _ _ Hrun).
           ++ cbn [trace]. subst w1. cbn [trace].
              rewrite <- app_assoc. reflexivity.
           ++ intros e He. apply in_app_or in He.
              destruct He as [He|[<-|[]]]; [now apply Hreq | exact I].
           ++ reflexivity.
        -- unfold ret in Hrun. injection Hrun as <- <- <-.
           eexists. split; [reflexivity|]. split; [exact Hreq|].
           split; reflexivity.
      * unfold ret in Hrun. injection Hrun as <- <- <-.
        eexists. split; [reflexivity|]. split; [exact Hreq|].
        split; reflexivity.
Qed.

(** The world in which the retry loop starts: the clock has reached the
    end of the rate limiter's interval. *)
Definition after_rate_wait (s : tool (F := F)) (w : world) : world :=
  {| clock := Z.max (clock w)
                    (last_request_time s + min_request_interval s);
     requests_made := requests_made w;
     draws_made := draws_made w;
     trace := trace w ++ rate_wait s w |}.

(** A call that misses the cache is the rate limiter's wait, then the
    retry loop, then the fallback. *)
Lemma get_stock_data_miss sym period (s : tool (F := F)) w :
  missed s w sym ->
  get_stock_data env sym period s w
  = (let '(r, s2, w2) :=
       attempts env sym period [0; 1; 2]%Z s (after_rate_wait s w) in
     match r with
     | Some d => (Some d, s2, w2)
     | None => fallback env sym s2 w2
     end).
Proof.
  intros Hmiss. unfold get_stock_data. unfold bind at 1.
  rewrite (cached_miss sym s w Hmiss).
  unfold bind at 1, self. unfold bind at 1, now. unfold bind at 1.
  assert (Hw : (if (clock w - last_request_time s
                    <? min_request_interval s)%Z
                then sleep (min_request_interval s
                            - (clock w - last_request_time s))
                else ret tt) s w = (tt, s, after_rate_wait s w)).
  { unfold after_rate_wait, rate_wait.
    destruct (Z.ltb_spec (clock w - last_request_time s)
                         (min_request_interval s)) as [Hlt|Hge].
    - unfold sleep. f_equal. f_equal. lia.
    - unfold ret. f_equal. destruct w as [c n d t]. cbn in *.
      f_equal; [lia | now rewrite app_nil_r]. }
  rewrite Hw. unfold bind at 1.
  destruct (attempts env sym period [0; 1; 2]%Z s (after_rate_wait s w))
    as [[[d|] s2] w2]; reflexivity.
Qed.

(** What a call leaves behind. *)
Definition call_effects (sym period : string) (s : tool (F := F))
    (w : world) (res : option (snapshot (F := F))) (s' : tool (F := F))
    (w' : world) : Prop :=
  same_but sym s s' /\
  (use_mock s = true -> res <> None) /\
  (res = None -> s' = s) /\
  (forall d, res = Some d -> exists ts, cache s' !! sym = Some (ts, d)) /\
  exists new,
    trace w' = trace w ++ new /\
    forall e, In e new ->
      match e with
      | Request sym' p1 p2 => sym' = sym /\ (p2 - p1 = lookback period)%Z
      | Sleep _ => True
      end.

Lemma miss_effects sym period (s : tool (F := F)) w res s' w' :
  missed s w sym ->
  get_stock_data env sym period s w = (res, s', w') ->
  call_effects sym period s w res s' w'.
Proof.
  intros Hmiss. rewrite (get_stock_data_miss sym period s w Hmiss).
  destruct (attempts env sym period [0; 1; 2]%Z s (after_rate_wait s w))
    as [[r s2] w2] eqn:Ea.
  destruct (attempts_effects _ _ _ _ _ _ _ _ Ea)
    as (new & Htr & Hev & _ & Hs2).
  cbn [after_rate_wait trace] in Htr.
  assert (Hrw : forall e, In e (rate_wait s w ++ new) ->
            match e with
            | Request sym' p1 p2 =>
                sym' = sym /\ (p2 - p1 = lookback period)%Z
            | Sleep _ => True
            end).
  { intros e He. apply in_app_or in He. destruct He as [He|He];
      [|now apply Hev].
    unfold rate_wait in He. destruct (_ <? _)%Z; [|contradiction].
    destruct He as [<-|[]]. exact I. }
  assert (Hins : forall entry,
             same_but sym s
               {| cache := <[sym := entry]> (cache s);
                  cache_duration := cache_duration s;
                  use_mock := use_mock s;
                  last_request_time := last_request_time s;
                  min_request_interval := min_request_interval s |}).
  { intros entry. repeat split. intros other Ho. cbn [cache].
    now rewrite lookup_insert_ne by congruence. }
  unfold call_effects. destruct r as [d|].
  - intros [= <- <- <-]. subst s2. split.
    { repeat split. intros other Ho. cbn [cache].
      now rewrite lookup_insert_ne by congruence. }
    split; [discriminate|]. split; [discriminate|].
    split; [intros d' [= <-]; cbn [cache]; rewrite lookup_insert_eq; eauto|].
    exists (rate_wait s w ++ new). rewrite Htr, app_assoc.
    split; [reflexivity | exact Hrw].
  - subst s2.
    destruct (fallback_cases env sym s w2)
      as [(Hm & data & _ & ->) | (Hm & ->)]; intros [= <- <- <-].
    + split; [apply Hins|].
      split; [discriminate|]. split; [discriminate|].
      split; [intros d' [= <-]; cbn [cache];
              rewrite lookup_insert_eq; eauto|].
      exists (rate_wait s w ++ new). cbn [trace].
      rewrite Htr, app_assoc. split; [reflexivity | exact Hrw].
    + split; [apply same_but_refl|].
      split; [congruence|]. split; [reflexivity|].
      split; [discriminate|].
      exists (rate_wait s w ++ new). rewrite Htr, app_assoc.
      split; [reflexivity | exact Hrw].
Qed.

(** Every call, hit or miss. *)
Lemma get_stock_data_effects sym period (s : tool (F := F)) w res s' w' :
  get_stock_data env sym period s w = (res, s', w') ->
  call_effects sym period s w res s' w'.
Proof.
  intros Hcall.
  destruct (cache s !! sym) as [[ts c]|] eqn:Ec.
  - destruct (Z.ltb_spec (clock w - ts) (cache_duration s)) as [Hfresh|Hst].
    + rewrite (get_stock_data_hit env sym period s w ts c Ec Hfresh) in Hcall.
      injection Hcall as <- <- <-.
      split; [apply same_but_refl|]. split; [discriminate|].
      split; [reflexivity|].
      split; [intros d [= <-]; eauto|].
      exists []. rewrite app_nil_r. split; [reflexivity | intros e []].
    + apply miss_effects; [|exact Hcall]. unfold missed. now rewrite Ec.
  - apply miss_effects; [|exact Hcall]. unfold missed. now rewrite Ec.
Qed.

End StockMore.

Section StockTheorems.
Import StockData Batch Portfolio.
Context {F : Type} `{Num F}.
Variable env : environment (F := F).



Lemma attempts_first_request sym period attempt rest
    (s : tool (F := F)) w r s' w' :
  attempts env sym period (attempt :: rest) s w = (r, s', w') ->
  exists more,
    trace w'
    = trace w ++ Request sym (clock w / 1000000 - lookback period)
                         (clock w / 1000000) :: more.
Proof.
  cbn [attempts]. unfold bind at 1.
  destruct (fetch_step env sym period s w) as (r0 & -> & _).
  set (w1 := {| clock := _; requests_made := _; draws_made := _;
                trace := _ |}).
  assert (Hgrow : forall wk,
             (exists mid, trace wk = trace w1 ++ mid) ->
             attempts env sym period rest s wk = (r, s', w') ->
             exists more,
               trace w'
               = trace w ++ Request sym (clock w / 1000000 - lookback period)
                                    (clock w / 1000000) :: more).
  { intros wk [mid Hmid] Hk.
    destruct (attempts_effects env _ _ _ _ _ _ _ _ Hk)
      as (new & Htr & _).
    exists (mid ++ new). rewrite Htr, Hmid. subst w1. cbn [trace].
    now rewrite <- !app_assoc. }
  destruct r0 as [[d|]|e].
  - unfold bind, now, set_cache, set_last_request_time, ret.
    intros [= <- <- <-]. exists []. reflexivity.
  - apply Hgrow. exists []. now rewrite app_nil_r.
  - destruct e as [|c|].
    + unfold ret. intros [= <- <- <-]. exists []. reflexivity.
    + destruct (c =? 429)%Z.
      * unfold bind at 1, sleep. apply Hgrow. cbn [trace]. eauto.
      * unfold ret. intros [= <- <- <-]. exists []. reflexivity.
    + unfold ret. intros [= <- <- <-]. exists []. reflexivity.
Qed.


End StockTheorems.

Section StockRuns.
Import StockData Batch Portfolio.


End StockRuns.

(* ===================================================================== *)
(** * The disclaimer of the prompts and the disclaimer check *)
(* ===================================================================== *)

Section DisclaimerFacts.
Import Text Guardrails Improvements.

(** The disclaimer that [SYSTEM_PROMPT] of prompts.py tells the model
    to end its recommendations with; it spans two lines. *)
Definition DISCLAIMER_TEMPLATE : text :=
  T "⚠️ DISCLAIMER: This analysis is for informational purposes only and should not be considered financial advice. "
  ++ [ascii_of_nat 10]
  ++ T "Consult a licensed financial advisor before making investment decisions. Past performance does not guarantee future results.".

(** The disclaimer quoted by the suggestion for a failed disclaimer
    check. *)
Definition SUGGESTED_DISCLAIMER : text :=
  T "⚠️ This is not financial advice. Consult a licensed advisor before investing.".

(** Where a phrase can stand in a concatenation: in the first part, in
    the second, or across the seam. *)
Lemma occurs_app_cases (p a b : text) :
  occurs p (a ++ b) ->
  occurs p a \/ occurs p b \/
  exists p1 c p2 rest, p = p1 ++ c :: p2 /\ p1 <> [] /\ b = c :: rest.
Proof.
  intros (pre & post & E).
  apply app_eq_app in E. destruct E as [l [[Ea Eb] | [Epre Eb]]].
  - apply app_eq_app in Eb.
    destruct Eb as [l' [[Ep Epost] | [El Eb]]].
    + destruct l as [|x l].
      * right. left. exists [], post. cbn [app] in Ep.
        subst l'. exact Epost.
      * destruct l' as [|c l'].
        -- left. exists pre, []. rewrite app_nil_r in Ep.
           subst p. now rewrite app_nil_r.
        -- right. right. exists (x :: l), c, l', (l' ++ post).
           repeat split; [exact Ep | discriminate | exact Epost].
    + left. exists pre, l'. subst l. exact Ea.
  - right. left. exists l, post. exact Eb.
Qed.


End DisclaimerFacts.

(* ===================================================================== *)
(** * The batch of snapshots *)
(* ===================================================================== *)

Section BatchFacts.
Import StockData Batch Portfolio.
Context {F : Type} `{Num F}.
Variable env : environment (F := F).

Lemma dict_set_keys {V} (d : dict V) k (v : V) k' :
  In k' (map fst (dict_set d k v)) <-> k' = k \/ In k' (map fst d).
Proof.
  induction d as [|[k0 v0] d IH]; cbn [dict_set map fst In].
  - intuition.
  - destruct (String.eqb_spec k0 k) as [->|Hne]; cbn [map fst In].
    + intuition.
    + rewrite IH. intuition.
Qed.

Lemma dict_set_NoDup {V} (d : dict V) k (v : V) :
  List.NoDup (map fst d) -> List.NoDup (map fst (dict_set d k v)).
Proof.
  induction d as [|[k0 v0] d IH]; cbn [dict_set map fst]; intros Hnd.
  - apply List.NoDup_cons; [intros [] | apply List.NoDup_nil].
  - apply List.NoDup_cons_iff in Hnd. destruct Hnd as [Hk0 Hnd].
    destruct (String.eqb_spec k0 k) as [->|Hne]; cbn [map fst].
    + now apply List.NoDup_cons.
    + apply List.NoDup_cons; [|now apply IH].
      rewrite dict_set_keys. intros [E|Hin]; [now apply Hne | now apply Hk0].
Qed.

Lemma dict_set_entries {V} (d : dict V) k (v : V) k' v' :
  List.NoDup (map fst d) ->
  In (k', v') (dict_set d k v) ->
  (k' = k /\ v' = v) \/ (k' <> k /\ In (k', v') d).
Proof.
  induction d as [|[k0 v0] d IH]; cbn [dict_set map fst]; intros Hnd Hin.
  - destruct Hin as [E|[]]. injection E as <- <-. now left.
  - apply List.NoDup_cons_iff in Hnd. destruct Hnd as [Hk0 Hnd].
    destruct (String.eqb_spec k0 k) as [->|Hne].
    + destruct Hin as [E|Hin]; [injection E as <- <-; now left|].
      right. split; [|now right].
      intros ->. apply Hk0. apply in_map_iff. now exists (k, v').
    + destruct Hin as [E|Hin].
      * injection E as <- <-. right. split; [exact Hne | now left].
      * destruct (IH Hnd Hin) as [?|[? ?]]; [now left|].
        right. split; [assumption | now right].
Qed.

(** What the loop keeps true of the dictionary built so far: its keys
    are distinct, and every snapshot in it is the cache entry of its
    key. *)
Definition in_step (results : dict (snapshot (F := F)))
    (s : tool (F := F)) : Prop :=
  List.NoDup (map fst results) /\
  forall sym d, In (sym, d) results ->
                exists ts, cache s !! sym = Some (ts, d).

Lemma collect_effects symbols :
  forall results (s : tool (F := F)) w,
    in_step results s ->
    let '(out, s', w') := collect env symbols results s w in
    in_step out s' /\
    use_mock s' = use_mock s /\
    (forall sym, In sym (map fst out) ->
                 In sym (map fst results) \/ In sym symbols) /\
    (forall sym, In sym (map fst results) -> In sym (map fst out)) /\
    (use_mock s = true ->
     forall sym, In sym symbols -> In sym (map fst out)).
Proof.
  induction symbols as [|symbol rest IH]; intros results s w Hin.
  - cbn [collect]. unfold ret. repeat split; try apply Hin; auto.
    intros _ sym [].
  - cbn [collect]. unfold bind at 1.
    destruct (get_stock_data env symbol "1y" s w) as [[data s1] w1] eqn:E.
    destruct (get_stock_data_effects env _ _ _ _ _ _ _ E)
      as ((Hother & _ & Hmock & _) & Hnever & Hnone & Hsome & _).
    destruct Hin as [Hnd Hcache].
    destruct data as [d|].
    + assert (Hin1 : in_step (dict_set results symbol d) s1).
      { split; [now apply dict_set_NoDup|].
        intros sym d' Hd'.
        destruct (dict_set_entries _ _ _ _ _ Hnd Hd') as [[-> ->]|[Hne Hold]].
        - now apply Hsome.
        - rewrite (Hother sym Hne). now apply Hcache. }
      specialize (IH (dict_set results symbol d) s1 w1 Hin1).
      destruct (collect env rest (dict_set results symbol d) s1 w1)
        as [[out s'] w'].
      destruct IH as (Hout & Hm & Hsub & Hkeep & Hall).
      split; [exact Hout|]. split; [now rewrite Hm|].
      split; [|split].
      * intros sym Hs. destruct (Hsub sym Hs) as [Hk|Hr].
        -- apply dict_set_keys in Hk. destruct Hk as [->|Hk];
             [right; now left | now left].
        -- right. now right.
      * intros sym Hs. apply Hkeep, dict_set_keys. now right.
      * intros Hon sym [<-|Hs].
        -- apply Hkeep, dict_set_keys. now left.
        -- apply Hall; [now rewrite Hmock | exact Hs].
    + rewrite (Hnone eq_refl) in *.
      specialize (IH results s w1 (conj Hnd Hcache)).
      destruct (collect env rest results s w1) as [[out s'] w'].
      destruct IH as (Hout & Hm & Hsub & Hkeep & Hall).
      split; [exact Hout|]. split; [exact Hm|].
      split; [|split].
      * intros sym Hs. destruct (Hsub sym Hs) as [Hk|Hr];
          [now left | right; now right].
      * exact Hkeep.
      * intros Hon. exfalso. now apply (Hnever Hon).
Qed.


End BatchFacts.

(* ===================================================================== *)
(** * state.py: the conversation history *)
(* ===================================================================== *)

Module History.
Import Text Agent.

(** [l[-limit:]]: for a positive limit the last [limit] items, or all
    of them when there are fewer; [-0] is [0], so a limit of 0 gives
    the whole list; a negative limit drops [-limit] items from the
    front. *)
Definition last_items {A} (limit : Z) (l : list A) : list A :=
  if (0 <? limit)%Z
  then skipn (length l - Z.to_nat limit) l
  else skipn (Z.to_nat (- limit)) l.

(** [f"{msg.role.upper()}: {msg.content}"] *)
Definition line (msg : Message) : text :=
  upper (T (role msg)) ++ T ": " ++ content msg.

Definition newline : text := [ascii_of_nat 10].

Section WithState.
Context {F : Type} {Payload Params : Type}.
Context {StockDataPoint IndicatorAnalysis AnalysisResult : Type}.

(** [AgentState.get_conversation_history]; [limit] defaults to 10. *)
Definition get_conversation_history
    (state : AgentState (F := F) Payload Params StockDataPoint
                        IndicatorAnalysis AnalysisResult)
    (limit : Z) : text :=
  let recent := last_items limit (messages state) in
  let history := join newline (map line recent) in
  history.

End WithState.

End History.

Section HistoryFacts.
Import Text Agent History.
Context {F : Type} {Payload Params : Type}.
Context {StockDataPoint IndicatorAnalysis AnalysisResult : Type}.

#[local] Abbreviation State :=
  (AgentState (F := F) Payload Params StockDataPoint IndicatorAnalysis
              AnalysisResult).

Lemma last_items_all {A} (limit : Z) (l : list A) :
  (Z.of_nat (length l) <= limit)%Z -> last_items limit l = l.
Proof.
  intros Hl. unfold last_items.
  destruct (Z.ltb_spec 0 limit) as [Hpos|Hneg].
  - replace (length l - Z.to_nat limit)%nat with 0%nat by lia. reflexivity.
  - destruct l as [|x l]; [now rewrite skipn_nil|]. simpl length in Hl. lia.
Qed.

Lemma last_items_snoc {A} (limit : Z) (l : list A) (x : A) :
  (0 < limit)%Z ->
  last_items limit (l ++ [x])
  = (if (limit =? 1)%Z then [] else last_items (limit - 1) l) ++ [x].
Proof.
  intros Hpos. unfold last_items.
  destruct (Z.ltb_spec 0 limit) as [_|?]; [|lia].
  rewrite length_app. cbn [length]. rewrite skipn_app.
  replace (length l + 1 - Z.to_nat limit - length l)%nat with 0%nat by lia.
  cbn [skipn]. f_equal.
  destruct (Z.eqb_spec limit 1) as [->|Hne].
  - replace (length l + 1 - Z.to_nat 1)%nat with (length l) by lia.
    apply skipn_all.
  - destruct (Z.ltb_spec 0 (limit - 1)) as [_|?]; [|lia].
    f_equal. lia.
Qed.


End HistoryFacts.

(* ===================================================================== *)
(** * agent.py: the fetch_data node *)
(* ===================================================================== *)

Module Stages.
Import Text StockData Agent.

Section WithNum.
Context {F : Type} `{Num F}.
Variable env : environment (F := F).

#[local] Notation "x <- m ;; k" := (bind m (fun x => k))
  (at level 100, m at next level, right associativity).

(** The payloads of tool calls stay abstract JSON values;
    [fetch_params symbol period] stands for the dictionary
    [{"symbol": _, "period": _}] and [fetch_output price date change]
    for [{"price": _, "date": _, "change_percent": _}]. *)
Variables (Payload Params : Type).
Variable fetch_params : string -> string -> Params.
Variable fetch_output : F -> string -> F -> Payload.
Variables (IndicatorAnalysis AnalysisResult : Type).

(** [StockDataPoint] of state.py. *)
Record StockDataPoint := {
  p_symbol : string;
  p_price : F;
  p_volume : Z;
  p_date : string;
  p_high : F;
  p_low : F;
  p_open : F;
  p_close : F;
}.

#[local] Abbreviation State :=
  (AgentState (F := F) Payload Params StockDataPoint IndicatorAnalysis
              AnalysisResult).

(** [AgentState.log_tool_call]; [now] is the reading of
    [datetime.now]. *)
Definition log_tool_call (now : Z) (state : State) (tool_name : string)
    (input_params : Params) (output : Payload) : State :=
  {| messages := messages state;
     current_query := current_query state;
     stock_analysis := stock_analysis state;
     latest_data := latest_data state;
     latest_indicators := latest_indicators state;
     comparison_symbols := comparison_symbols state;
     comparison_results := comparison_results state;
     portfolio_holdings := portfolio_holdings state;
     portfolio_allocation_pref := portfolio_allocation_pref state;
     tool_calls := tool_calls state
                   ++ [ {| tool_name := tool_name;
                           input_params := input_params;
                           output := output;
                           call_timestamp := now |} ];
     final_response := final_response state;
     guardrail_checks := guardrail_checks state;
     created_at := created_at state;
     session_id := session_id state |}.

(** [state.latest_data = point] *)
Definition set_latest_data (state : State) (point : StockDataPoint)
  : State :=
  {| messages := messages state;
     current_query := current_query state;
     stock_analysis := stock_analysis state;
     latest_data := Some point;
     latest_indicators := latest_indicators state;
     comparison_symbols := comparison_symbols state;
     comparison_results := comparison_results state;
     portfolio_holdings := portfolio_holdings state;
     portfolio_allocation_pref := portfolio_allocation_pref state;
     tool_calls := tool_calls state;
     final_response := final_response state;
     guardrail_checks := guardrail_checks state;
     created_at := created_at state;
     session_id := session_id state |}.

(** The point [fetch_data] stores for a snapshot; the close is the
    current price. *)
Definition point_of (data : snapshot (F := F)) : StockDataPoint :=
  {| p_symbol := symbol data;
     p_price := price data;
     p_volume := volume data;
     p_date := date data;
     p_high := high data;
     p_low := low data;
     p_open := open data;
     p_close := price data |}.

(** The body of the loop of [fetch_data] for one symbol. *)
Definition fetch_one (symbol : string) (state : State) : M State :=
  data <- get_stock_data env symbol "1y" ;;
  match data with
  | Some data =>
      t <- now ;;
      let state :=
        log_tool_call t state "get_stock_data"
          (fetch_params symbol "1y")
          (fetch_output (price data) (date data) (change_percent data)) in
      ret (set_latest_data state (point_of data))
  | None => ret state
  end.

Fixpoint fetch_each (symbols : list string) (state : State) : M State :=
  match symbols with
  | [] => ret state
  | symbol :: rest =>
      state <- fetch_one symbol state ;;
      fetch_each rest state
  end.

(** The [fetch_data] node, run with the tool object of the agent;
    logging leaves no mark on the state and is left out. *)
Definition fetch_data (state : State) : M State :=
  match comparison_symbols state with
  | [] =>
      t <- now ;;
      ret (add_message Payload Params StockDataPoint IndicatorAnalysis
             AnalysisResult t state "assistant"
             (T "I couldn't identify any stock symbols in your query. Could you mention specific tickers?"))
  | _ :: _ =>
      state <- fetch_each (firstn 5 (comparison_symbols state)) state ;;
      t <- now ;;
      ret (add_message Payload Params StockDataPoint IndicatorAnalysis
             AnalysisResult t state "system"
             (T "Fetched data for "
              ++ decimal (length (tool_calls state)) ++ T " symbol(s)"))
  end.

End WithNum.

End Stages.

Section FetchFacts.
Import Text StockData Agent Stages.
Context {F : Type} `{Num F}.
Variable env : environment (F := F).
Variables (Payload Params : Type).
Variable fetch_params : string -> string -> Params.
Variable fetch_output : F -> string -> F -> Payload.
Variables (IndicatorAnalysis AnalysisResult : Type).

#[local] Abbreviation State :=
  (AgentState (F := F) Payload Params (StockDataPoint (F := F))
              IndicatorAnalysis AnalysisResult).

#[local] Abbreviation fetch_one' :=
  (fetch_one env Payload Params fetch_params fetch_output
             IndicatorAnalysis AnalysisResult).
#[local] Abbreviation fetch_each' :=
  (fetch_each env Payload Params fetch_params fetch_output
              IndicatorAnalysis AnalysisResult).
#[local] Abbreviation fetch_data' :=
  (fetch_data env Payload Params fetch_params fetch_output
              IndicatorAnalysis AnalysisResult).

(** The eleven fields [fetch_data] has no business with. *)
Definition same_elsewhere (state state' : State) : Prop :=
  current_query state' = current_query state /\
  stock_analysis state' = stock_analysis state /\
  latest_indicators state' = latest_indicators state /\
  comparison_symbols state' = comparison_symbols state /\
  comparison_results state' = comparison_results state /\
  portfolio_holdings state' = portfolio_holdings state /\
  portfolio_allocation_pref state' = portfolio_allocation_pref state /\
  final_response state' = final_response state /\
  guardrail_checks state' = guardrail_checks state /\
  created_at state' = created_at state /\
  session_id state' = session_id state.

Lemma same_elsewhere_refl state : same_elsewhere state state.
Proof. repeat split. Qed.

Lemma same_elsewhere_trans a b c :
  same_elsewhere a b -> same_elsewhere b c -> same_elsewhere a c.
Proof. unfold same_elsewhere. intuition congruence. Qed.

(** The retry loop makes at most one request per attempt. *)
Lemma attempts_request_count sym period todo (s : tool (F := F)) w :
  (requests_made (snd (attempts env sym period todo s w))
   <= requests_made w + length todo)%nat.
Proof.
  revert s w. induction todo as [|attempt rest IH]; intros s w.
  - cbn. lia.
  - cbn [attempts length]. unfold bind at 1.
    destruct (fetch_step env sym period s w) as (r0 & -> & _).
    destruct r0 as [[d|]|e].
    + cbn. lia.
    + etransitivity; [apply IH|]. cbn [requests_made]. lia.
    + destruct e as [|c|]; try (cbn; lia).
      destruct (c =? 429)%Z; [|cbn; lia].
      unfold bind at 1, sleep.
      etransitivity; [apply IH|]. cbn [requests_made]. lia.
Qed.

(** A call makes at most three requests. *)
Lemma get_stock_data_request_count sym period (s : tool (F := F)) w :
  (requests_made (snd (get_stock_data env sym period s w))
   <= requests_made w + 3)%nat.
Proof.
  assert (Hmiss : missed s w sym ->
            (requests_made (snd (get_stock_data env sym period s w))
             <= requests_made w + 3)%nat).
  { intros Hm. rewrite (get_stock_data_miss env sym period s w Hm).
    pose proof (attempts_request_count sym period [0; 1; 2]%Z s
                  (after_rate_wait s w)) as Hb.
    destruct (attempts env sym period [0; 1; 2]%Z s (after_rate_wait s w))
      as [[r s2] w2].
    cbn [snd length after_rate_wait requests_made] in Hb.
    destruct r as [d|]; [exact Hb|].
    destruct (fallback_cases env sym s2 w2)
      as [(_ & data & _ & ->) | (_ & ->)]; exact Hb. }
  destruct (cache s !! sym) as [[ts c]|] eqn:Ec.
  - destruct (Z.ltb_spec (clock w - ts) (cache_duration s)) as [Hfresh|Hst].
    + rewrite (get_stock_data_hit env sym period s w ts c Ec Hfresh).
      cbn [snd]. lia.
    + apply Hmiss. unfold missed. now rewrite Ec.
  - apply Hmiss. unfold missed. now rewrite Ec.
Qed.

(** One turn of the loop: a call is logged and the point stored, or,
    when nothing came back, the state stays as it was. *)
Lemma fetch_one_effects symbol (state : State) (s : tool (F := F)) w :
  let '(state', s', w') := fetch_one' symbol state s w in
  same_elsewhere state state' /\
  messages state' = messages state /\
  use_mock s' = use_mock s /\
  (requests_made w' <= requests_made w + 3)%nat /\
  ((exists call point,
      tool_calls state' = tool_calls state ++ [call] /\
      tool_name call = "get_stock_data"%string /\
      input_params call = fetch_params symbol "1y" /\
      latest_data state' = Some point) \/
   (use_mock s = false /\ state' = state)).
Proof.
  unfold fetch_one. unfold bind at 1.
  pose proof (get_stock_data_request_count symbol "1y" s w) as Hcount.
  destruct (get_stock_data env symbol "1y" s w) as [[data s1] w1] eqn:E.
  cbn [snd] in Hcount.
  destruct (get_stock_data_effects env _ _ _ _ _ _ _ E)
    as ((_ & _ & Hmock & _) & Hnever & _).
  destruct data as [d|].
  - unfold bind, now, ret.
    split; [repeat split|]. split; [reflexivity|].
    split; [exact Hmock|]. split; [exact Hcount|].
    left. eexists _, _. repeat split.
  - unfold ret.
    split; [apply same_elsewhere_refl|]. split; [reflexivity|].
    split; [exact Hmock|]. split; [exact Hcount|].
    right. split; [|reflexivity].
    destruct (use_mock s); [|reflexivity].
    exfalso. now apply Hnever.
Qed.

Lemma fetch_each_effects symbols :
  forall (state : State) (s : tool (F := F)) w,
    let '(state', s', w') := fetch_each' symbols state s w in
    same_elsewhere state state' /\
    messages state' = messages state /\
    use_mock s' = use_mock s /\
    (requests_made w' <= requests_made w + 3 * length symbols)%nat /\
    exists fetched calls,
      sublist fetched symbols /\
      tool_calls state' = tool_calls state ++ calls /\
      map (fun call => tool_name call) calls
      = map (fun _ => "get_stock_data"%string) fetched /\
      map (fun call => input_params call) calls
      = map (fun sym => fetch_params sym "1y") fetched /\
      (use_mock s = true -> fetched = symbols) /\
      (fetched = [] -> state' = state).
Proof.
  induction symbols as [|symbol rest IH]; intros state s w.
  - cbn [fetch_each]. unfold ret.
    split; [apply same_elsewhere_refl|]. split; [reflexivity|].
    split; [reflexivity|]. split; [cbn; lia|].
    exists [], []. rewrite app_nil_r. repeat split. constructor.
  - cbn [fetch_each]. unfold bind at 1.
    pose proof (fetch_one_effects symbol state s w) as H1.
    destruct (fetch_one' symbol state s w) as [[state1 s1] w1].
    destruct H1 as (Hsame1 & Hmsg1 & Hmock1 & Hreq1 & Hcall).
    specialize (IH state1 s1 w1).
    destruct (fetch_each' rest state1 s1 w1) as [[state' s'] w'].
    destruct IH as (Hsame & Hmsg & Hmock & Hreq
                    & fetched & calls & Hsub & Hcalls & Hnames & Hparams
                    & Hall & Hnone).
    split; [now apply same_elsewhere_trans with state1|].
    split; [congruence|]. split; [congruence|].
    split; [cbn [length]; lia|].
    destruct Hcall as [(call & point & Ecall & Ename & Eparam & _)
                      | (Hoff & ->)].
    + exists (symbol :: fetched), (call :: calls).
      split; [now constructor|].
      split; [rewrite Hcalls, Ecall, <- app_assoc; reflexivity|].
      split; [cbn [map]; now rewrite Ename, Hnames|].
      split; [cbn [map]; now rewrite Eparam, Hparams|].
      split; [|discriminate].
      intros Hon. f_equal. apply Hall. now rewrite Hmock1.
    + exists fetched, calls.
      split; [now constructor|]. split; [exact Hcalls|].
      split; [exact Hnames|]. split; [exact Hparams|].
      split; [intros Hon; congruence | exact Hnone].
Qed.


End FetchFacts.

(* ===================================================================== *)
(** * agent.py: the fallback extraction of parse_query *)
(* ===================================================================== *)

Module QueryParsing.
Import Text Regex.

(** [class{0,n}], greedy. *)
Fixpoint at_most (n : nat) (p : ascii -> bool) : regex :=
  match n with
  | 0 => Eps
  | S k => Opt (Seq (Cls p) (at_most k p))
  end.

(** [\b[A-Z]{1,5}\b] *)
Definition symbol_pattern : regex :=
  Seq Bnd (Seq (Seq (Cls is_upper) (at_most 4 is_upper)) Bnd).

(** [t[i:j]] *)
Definition slice (t : text) (i j : nat) : text :=
  firstn (j - i) (skipn i t).

Fixpoint text_eqb (a b : text) : bool :=
  match a, b with
  | [], [] => true
  | x :: a', y :: b' => Ascii.eqb x y && text_eqb a' b'
  | _, _ => false
  end.

(** [s in words] *)
Definition mem (s : text) (words : list text) : bool :=
  existsb (text_eqb s) words.

Definition common_words : list text :=
  map T [ "AND"; "THE"; "FOR"; "NOT"; "ARE"; "BUT"; "WITH"; "FROM";
          "SHOULD"; "IF"; "IS"; "TO"; "A"; "S"; "I"; "E"; "P"; "V" ]%string.

(** [list(dict.fromkeys(l))]: the first occurrence of each item, in
    order. *)
Fixpoint fromkeys (seen l : list text) : list text :=
  match l with
  | [] => []
  | x :: l' =>
      if mem x seen then fromkeys seen l'
      else x :: fromkeys (x :: seen) l'
  end.

(** The symbols [parse_query] falls back on when the reply of the
    language model cannot be used. *)
Definition fallback_symbols (current_query : text) : list text :=
  let t := upper current_query in
  let symbols :=
    map (fun '(i, j) => slice t i j) (findall false symbol_pattern t) in
  let symbols :=
    List.filter (fun s => negb (mem s common_words) && (2 <=? length s))
                symbols in
  fromkeys [] symbols.

End QueryParsing.

Section QueryFacts.
Import Text Regex QueryParsing.

Lemma text_eqb_eq (a b : text) : text_eqb a b = true <-> a = b.
Proof.
  revert b. induction a as [|x a IH]; intros [|y b]; cbn [text_eqb];
    try (split; [discriminate | discriminate]); [tauto|].
  rewrite andb_true_iff, Ascii.eqb_eq, IH. split.
  - now intros [-> ->].
  - intros E. now injection E.
Qed.

Lemma mem_In (s : text) (words : list text) :
  mem s words = true <-> In s words.
Proof.
  unfold mem. rewrite existsb_exists. split.
  - intros (w & Hw & E). apply text_eqb_eq in E. now subst.
  - intros Hin. exists s. split; [exact Hin | now apply text_eqb_eq].
Qed.

Lemma fromkeys_spec (l seen : list text) :
  List.NoDup (fromkeys seen l) /\
  forall s, In s (fromkeys seen l) -> In s l /\ ~ In s seen.
Proof.
  revert seen. induction l as [|x l IH]; intros seen; cbn [fromkeys].
  - split; [apply List.NoDup_nil | intros s []].
  - destruct (mem x seen) eqn:Em.
    + destruct (IH seen) as [Hnd Hin]. split; [exact Hnd|].
      intros s Hs. destruct (Hin s Hs). split; [now right | assumption].
    + destruct (IH (x :: seen)) as [Hnd Hin].
      assert (Hx : ~ In x seen).
      { intros Hx. apply mem_In in Hx. congruence. }
      split.
      * apply List.NoDup_cons; [|exact Hnd].
        intros Hs. destruct (Hin x Hs) as [_ Hno]. apply Hno. now left.
      * intros s [<-|Hs]; [split; [now left | exact Hx]|].
        destruct (Hin s Hs) as [Hl Hno].
        split; [now right|]. intros Hseen. apply Hno. now right.
Qed.

(** A span is among the ends the matcher tried at its start. *)
Lemma findall_from_sound fuel ic r t :
  forall s i j,
    In (i, j) (findall_from fuel ic r t s) -> In j (ends ic t r i).
Proof.
  induction fuel as [|fuel IH]; intros s i j; cbn [findall_from];
    [intros []|].
  destruct (length t <? s); [intros []|].
  destruct (ends ic t r s) as [|j0 l] eqn:E; [apply IH|].
  intros [Hij|Hin]; [|now apply IH in Hin].
  injection Hij as <- <-. rewrite E. now left.
Qed.

Lemma ends_at_most ic t p n :
  forall i j,
    In j (ends ic t (at_most n p) i) ->
    i <= j <= i + n /\
    forall k, i <= k < j ->
              exists c, nth_error t k = Some c /\ p c = true.
Proof.
  induction n as [|n IH]; intros i j; cbn [at_most].
  - cbn [ends]. intros [<-|[]]. split; [lia | intros k Hk; lia].
  - cbn [ends]. intros Hin. apply in_app_or in Hin.
    destruct Hin as [Hin|[<-|[]]]; [|split; [lia | intros k Hk; lia]].
    apply in_flat_map in Hin. destruct Hin as (m & Hm & Hj).
    destruct (nth_error t i) as [x|] eqn:Ex; [|destruct Hm].
    destruct (p x) eqn:Ep; [|destruct Hm].
    destruct Hm as [<-|[]].
    destruct (IH _ _ Hj) as [Hr Hall].
    split; [lia|]. intros k Hk.
    destruct (Nat.eq_dec k i) as [->|Hne]; [now exists x|].
    apply Hall. lia.
Qed.

Lemma is_upper_word c : is_upper c = true -> is_word c = true.
Proof. intros Hc. unfold is_word. rewrite Hc. reflexivity. Qed.

(** What a match of the pattern is: one to five capital letters
    between two word boundaries. *)
Lemma ends_symbol_pattern ic t i j :
  In j (ends ic t symbol_pattern i) ->
  boundary t i = true /\ boundary t j = true /\
  i < j <= i + 5 /\
  forall k, i <= k < j ->
            exists c, nth_error t k = Some c /\ is_upper c = true.
Proof.
  unfold symbol_pattern. intros Hin.
  apply In_ends_Seq_inv in Hin. destruct Hin as (i0 & Hb & Hin).
  cbn [ends] in Hb. destruct (boundary t i) eqn:Bi; [|destruct Hb].
  destruct Hb as [<-|[]].
  apply In_ends_Seq_inv in Hin. destruct Hin as (j0 & Hrun & Hb).
  cbn [ends] in Hb. destruct (boundary t j0) eqn:Bj; [|destruct Hb].
  destruct Hb as [<-|[]].
  apply In_ends_Seq_inv in Hrun. destruct Hrun as (m & Hm & Hrest).
  cbn [ends] in Hm.
  destruct (nth_error t i) as [x|] eqn:Ex; [|destruct Hm].
  destruct (is_upper x) eqn:Ep; [|destruct Hm].
  destruct Hm as [<-|[]].
  destruct (ends_at_most _ _ _ _ _ _ Hrest) as [Hr Hall].
  split; [reflexivity|]. split; [exact Bj|]. split; [lia|].
  intros k Hk. destruct (Nat.eq_dec k i) as [->|Hne]; [now exists x|].
  apply Hall. lia.
Qed.

Lemma slice_split (t : text) i j :
  i <= j <= length t ->
  t = firstn i t ++ slice t i j ++ skipn j t /\
  length (firstn i t) = i /\ length (slice t i j) = j - i.
Proof.
  intros Hij. unfold slice.
  assert (E : skipn j t = skipn (j - i) (skipn i t)).
  { rewrite skipn_skipn. f_equal. lia. }
  rewrite E, firstn_skipn, firstn_skipn.
  split; [reflexivity|].
  rewrite !length_firstn, length_skipn. lia.
Qed.

Lemma slice_nth (t : text) i j k :
  k < j - i -> nth_error (slice t i j) k = nth_error t (i + k).
Proof.
  intros Hk. unfold slice.
  rewrite nth_error_firstn.
  destruct (Nat.ltb_spec k (j - i)) as [_|?]; [|lia].
  apply nth_error_skipn.
Qed.


End QueryFacts.
